(** * Misión AMVISION 10K backend: a shallow embedding of [main.py] and [schemas.py]

    The HTTP handlers of [main.py] are embedded as functions that pass the
    document store explicitly.  The module-level handle [db] of the source is
    either [None] (store not configured) or a live database; it is embedded
    as [option store].  A handler returns its HTTP outcome together with the
    store it leaves behind; a handler that only reads returns its outcome.

    - Python [int] is [Z]; Python [float] is the kernel's binary64 [float]
      (the same IEEE 754 double, with the same rounding).
    - Python [str] is the [string] of its UTF-8 bytes.  [str.lower] is
      embedded on the ASCII letters, bytes above 127 are kept as they are: it
      is Python's on ASCII text, and on any text it agrees with Python's on
      whether the result is ["fast"], ["normal"] or ["slow"] (no non-ASCII
      letter lowers to an ASCII letter of these), so the coins are the
      code's for every speed and the reason text of a reward is the code's
      for ASCII speeds.
    - A Mongo [ObjectId] is an opaque unique token, embedded as a number;
      [str(oid)] is injective and is embedded as the token itself.
    - A Python [set] of strings is a [gset string]; [list(set)] is
      [elements], one of the orders Python may produce.
    - A stored document is a record of its schema; the fields that [main.py]
      reads with [.get(key, default)] are optional.
    - [database.py] is not among the sources: the storage adapter is
      embedded from its description, as a list of documents per collection in
      stored order. *)

From Stdlib Require Import ZArith Ascii String List Permutation Sorted.
From Stdlib Require Import Floats.PrimFloat.
From stdpp Require Import gmap strings list.

Local Open Scope string_scope.
Local Open Scope list_scope.
Local Open Scope Z_scope.

Definition ObjectId := N.

(** ** schemas.py: the three collections *)

(** A stored document of collection ["player"].  [name] and [email] are the
    required fields of [class Player]; the fields that [main.py] reads with
    [.get(key, default)] may be absent from a stored document. *)
Module Player.
Record doc := mk {
  _id : ObjectId;
  name : string;
  email : string;
  av_coins : option Z;
  revenue_usd : option float;
  completed_milestones : option (list string);
  unlocked_worlds : option (list string)
}.
End Player.

(** A stored document of collection ["milestone"]; [main.py] reads
    [milestone_id] and [order] with [.get]. *)
Module Milestone.
Record fields := mk {
  milestone_id : option string;
  title : string;
  description : option string;
  order : option Z
}.
Record doc := mkdoc { _id : ObjectId; body : fields }.
End Milestone.

(** A stored document of collection ["reward"]. *)
Module Reward.
Record fields := mk {
  player_id : ObjectId;
  milestone_id : option string;
  reason : string;
  coins : Z
}.
Record doc := mkdoc { _id : ObjectId; body : fields }.
End Reward.

(** The three collections of the database and the next fresh [ObjectId]. *)
Record store := mkstore {
  player : list Player.doc;
  milestone : list Milestone.doc;
  reward : list Reward.doc;
  next_oid : ObjectId
}.

Definition empty_store : store := mkstore [] [] [] 0%N.

(** ** The HTTP outcome of a handler *)

Record HTTPException := mkHTTPException { status_code : Z; detail : string }.

Inductive result (A : Type) : Type :=
| Ok (a : A)
| Raise (e : HTTPException).
Arguments Ok {A} a.
Arguments Raise {A} e.

Definition Database_not_configured : HTTPException :=
  mkHTTPException 500 "Database not configured".
Definition Player_not_found : HTTPException :=
  mkHTTPException 404 "Player not found".

(** ** The storage adapter *)

Module Database.

(** [l] with [f] applied to its first element that satisfies [P]; [l]
    itself when there is none. *)
Fixpoint update_first {A : Type} (P : A -> bool) (f : A -> A) (l : list A) : list A :=
  match l with
  | [] => []
  | x :: l' => if P x then f x :: l' else x :: update_first P f l'
  end.

(** Modelled from the spec: [database.py] is not among the sources; this is
    [findOne(collection, filter)] of the storage adapter (pymongo's
    [find_one]) on collection ["player"] with the filter [{"email": e}]:
    the first stored document whose email is [e]. *)
Definition find_one_by_email (s : store) (e : string) : option Player.doc :=
  List.find (fun p => String.eqb (Player.email p) e) (player s).

(** Modelled from the spec: [updateOne(collection, filter, mutation)] of
    the storage adapter (pymongo's [update_one]) on collection ["player"]
    with the filter [{"_id": oid}]: the mutation [f] is applied to the
    first document with that [_id], and to nothing when there is none. *)
Definition update_one_by_id (s : store) (oid : ObjectId) (f : Player.doc -> Player.doc) : store :=
  mkstore (update_first (fun p => N.eqb (Player._id p) oid) f (player s))
          (milestone s) (reward s) (next_oid s).

(** Modelled from the spec: [insert(collection, document) -> generatedId]
    of the storage adapter ([create_document] of [database.py]): the
    document is appended to its collection under a fresh [_id], which is
    returned. *)
Definition create_document_player (s : store) (mk : ObjectId -> Player.doc) : ObjectId * store :=
  (next_oid s,
   mkstore (player s ++ [mk (next_oid s)]) (milestone s) (reward s) (N.succ (next_oid s))).

Definition create_document_milestone (s : store) (item : Milestone.fields) : ObjectId * store :=
  (next_oid s,
   mkstore (player s) (milestone s ++ [Milestone.mkdoc (next_oid s) item]) (reward s)
           (N.succ (next_oid s))).

Definition create_document_reward (s : store) (item : Reward.fields) : ObjectId * store :=
  (next_oid s,
   mkstore (player s) (milestone s) (reward s ++ [Reward.mkdoc (next_oid s) item])
           (N.succ (next_oid s))).

(** Modelled from the spec: [findMany(collection, filter)] of the storage
    adapter ([get_documents] of [database.py]) on collection ["milestone"]
    with the empty filter and no limit: every stored document, in stored
    order; it fails when the store is not configured. *)
Definition get_documents_milestone (db : option store) : result (list Milestone.doc) :=
  match db with
  | None => Raise Database_not_configured
  | Some s => Ok (milestone s)
  end.

(** The update operators of the mutations that [main.py] sends. *)

(** [{"$set": {"completed_milestones": l}, "$inc": {"av_coins": n}}]; [$inc]
    of an absent field sets it to [n]. *)
Definition set_completed_inc_coins (l : list string) (n : Z) (p : Player.doc) : Player.doc :=
  Player.mk (Player._id p) (Player.name p) (Player.email p)
            (Some (default 0 (Player.av_coins p) + n))
            (Player.revenue_usd p) (Some l) (Player.unlocked_worlds p).

(** [{"$addToSet": {"unlocked_worlds": w}}]: [w] is appended unless the
    array has it already; an absent field becomes the array [[w]]. *)
Definition addToSet_unlocked_worlds (w : string) (p : Player.doc) : Player.doc :=
  let l := default [] (Player.unlocked_worlds p) in
  Player.mk (Player._id p) (Player.name p) (Player.email p) (Player.av_coins p)
            (Player.revenue_usd p) (Player.completed_milestones p)
            (Some (if bool_decide (w ∈ l) then l else l ++ [w])).

(** [{"$set": {"revenue_usd": r}}]. *)
Definition set_revenue_usd (r : float) (p : Player.doc) : Player.doc :=
  Player.mk (Player._id p) (Player.name p) (Player.email p) (Player.av_coins p)
            (Some r) (Player.completed_milestones p) (Player.unlocked_worlds p).

End Database.

(** ** main.py *)

(** [str.lower], on the ASCII letters. *)
Definition lower_ascii (c : ascii) : ascii :=
  let n := nat_of_ascii c in
  if (65 <=? n)%nat && (n <=? 90)%nat then ascii_of_nat (n + 32) else c.

Fixpoint lower (s : string) : string :=
  match s with
  | EmptyString => EmptyString
  | String c s' => String (lower_ascii c) (lower s')
  end.

(** [x or d] for an optional string: [d] when [x] is [None] or empty. *)
Definition str_or (x : option string) (d : string) : string :=
  match x with
  | None => d
  | Some EmptyString => d
  | Some s => s
  end.

(** [float(x or 0)] for an optional float: [0.0] when [x] is [None] or a
    zero (of either sign), [x] otherwise (a NaN is truthy). *)
Definition float_or_0 (x : option float) : float :=
  match x with
  | None => 0%float
  | Some f => if PrimFloat.eqb f 0%float then 0%float else f
  end.

(** A stable sort by an integer key, as [list.sort(key=...)] is: an element
    is put in front of the first element of the sorted rest whose key is not
    below its own. *)
Fixpoint insert_by_key {A : Type} (key : A -> Z) (x : A) (l : list A) : list A :=
  match l with
  | [] => [x]
  | y :: l' => if key x <=? key y then x :: l else y :: insert_by_key key x l'
  end.

Fixpoint sort_by_key {A : Type} (key : A -> Z) (l : list A) : list A :=
  match l with
  | [] => []
  | x :: l' => insert_by_key key x (sort_by_key key l')
  end.

(** The request and response models of [main.py]. *)
Record CreatePlayer := mkCreatePlayer { cp_name : string; cp_email : string }.

Record CompleteMilestoneRequest := mkCompleteMilestoneRequest {
  player_email : string;
  milestone_id : string;
  speed : option string;
  revenue_increase : option float
}.

Record CompleteMilestoneResponse := mkCompleteMilestoneResponse {
  av_coins_awarded : Z;
  revenue_usd : float;
  unlocked_world : option string;
  message : string
}.

Record PlayerSummary := mkPlayerSummary {
  ps_name : string;
  ps_email : string;
  ps_av_coins : Z;
  ps_revenue_usd : float;
  ps_completed_milestones : list string;
  ps_unlocked_worlds : list string
}.

(** The catalog of [bootstrap]. *)
Definition catalog_item (id title : string) (n : Z) : Milestone.fields :=
  Milestone.mk (Some id) title None (Some n).

Definition catalog : list Milestone.fields :=
  [ catalog_item "m1"  "Email y WhatsApp de Bienvenida es Enviado" 1;
    catalog_item "m2"  "Formulario de Onboarding es completado" 2;
    catalog_item "m3"  "Llamada de Onboarding es llamada completada" 3;
    catalog_item "m4"  "Status es Producto Ganador" 4;
    catalog_item "m5"  "Status es Elegido Proveedor" 5;
    catalog_item "m6"  "Status es Confirmado" 6;
    catalog_item "m7"  "Tienda, Status es Creada" 7;
    catalog_item "m8"  "Business Manager Status es Creado" 8;
    catalog_item "m9"  "Primeros ADS Subidos" 9;
    catalog_item "m10" "🔥 Primera Venta" 10;
    catalog_item "m11" "😍 $1.000USD Facturación" 11 ].

(** The dictionary of speed rewards of [complete_milestone]. *)
Definition speed_rewards : gmap string Z :=
  {[ "fast" := 50; "normal" := 30; "slow" := 15 ]}.

Section Handlers.

(** The validation of pydantic's [EmailStr], which [Player(...)] runs on
    the email; it belongs to a library and is taken as it comes.  It is
    [None] when the validation raises, and otherwise the address that the
    validation returns and that [Player(...).email] then holds: the submitted
    address normalised (blanks around it dropped, its domain in lower case). *)
Variable EmailStr : string -> option string.

(** The identifiers [existing] of [bootstrap]. *)
Definition existing_milestone_ids (s : store) : gset (option string) :=
  list_to_set (map (fun m => Milestone.milestone_id (Milestone.body m)) (milestone s)).

(** One turn of the loop of [bootstrap], on the store and the counter
    [created]. *)
Definition bootstrap_item (existing : gset (option string)) (acc : store * Z)
    (item : Milestone.fields) : store * Z :=
  if bool_decide (Milestone.milestone_id item ∈ existing) then acc
  else (snd (Database.create_document_milestone (fst acc) item), snd acc + 1).

(** [POST /api/bootstrap]; the answer is [milestones_created]. *)
Definition bootstrap (db : option store) : result Z * option store :=
  match db with
  | None => (Raise Database_not_configured, db)
  | Some s =>
      let existing := existing_milestone_ids s in
      let '(s', created) := fold_left (bootstrap_item existing) catalog (s, 0) in
      (Ok created, Some s')
  end.

(** [Player(name=..., email=...)] with the defaults of the schema, stored
    under [oid].  The default [0] of [revenue_usd] is the number zero, which
    [complete_milestone] reads back through [float(...)]; it is kept as
    [0.0]. *)
Definition new_player (name email : string) (oid : ObjectId) : Player.doc :=
  Player.mk oid name email (Some 0) (Some 0%float) (Some []) (Some []).

(** What the client sees when [Player(...)] raises pydantic's
    [ValidationError], which the handler does not catch. *)
Definition Validation_error : HTTPException :=
  mkHTTPException 500 "Internal Server Error".

(** [POST /api/player]; the answer is [player_id].  The lookup is by the
    submitted address; the document stored is [Player(...)], whose email is
    the address as [EmailStr] returns it. *)
Definition create_player (payload : CreatePlayer) (db : option store)
    : result ObjectId * option store :=
  match db with
  | None => (Raise Database_not_configured, db)
  | Some s =>
      match Database.find_one_by_email s (cp_email payload) with
      | Some found => (Ok (Player._id found), db)
      | None =>
          match EmailStr (cp_email payload) with
          | Some email =>
              let '(new_id, s') :=
                Database.create_document_player s
                  (new_player (cp_name payload) email) in
              (Ok new_id, Some s')
          | None => (Raise Validation_error, db)
          end
      end
  end.

(** [GET /api/milestones]: the documents sorted by [order] (999 when
    absent), each without its [_id]. *)
Definition order_key (d : Milestone.doc) : Z :=
  default 999 (Milestone.order (Milestone.body d)).

Definition list_milestones (db : option store) : result (list Milestone.fields) :=
  match Database.get_documents_milestone db with
  | Raise e => Raise e
  | Ok docs => Ok (map Milestone.body (sort_by_key order_key docs))
  end.

(** The reward document that [complete_milestone] writes. *)
Definition reward_item (player : Player.doc) (mid speed : string) (coins : Z) : Reward.fields :=
  Reward.mk (Player._id player) (Some mid)
            ("Completed " +:+ mid +:+ " (" +:+ speed +:+ ")") coins.

(** [POST /api/complete]. *)
Definition complete_milestone (payload : CompleteMilestoneRequest) (db : option store)
    : result CompleteMilestoneResponse * option store :=
  match db with
  | None => (Raise Database_not_configured, db)
  | Some s =>
      match Database.find_one_by_email s (player_email payload) with
      | None => (Raise Player_not_found, db)
      | Some player =>
          let completed : gset string :=
            list_to_set (default [] (Player.completed_milestones player)) in
          let '(coins, s1) :=
            if bool_decide (milestone_id payload ∈ completed) then (0, s)
            else
              let completed := completed ∪ {[ milestone_id payload ]} in
              let speed := lower (str_or (speed payload) "normal") in
              let speed_reward := default 30 (speed_rewards !! speed) in
              let coins := 100 + speed_reward in
              let s := snd (Database.create_document_reward s
                              (reward_item player (milestone_id payload) speed coins)) in
              let s := Database.update_one_by_id s (Player._id player)
                         (Database.set_completed_inc_coins (elements completed) coins) in
              (coins, s) in
          let rev_inc := float_or_0 (revenue_increase payload) in
          let new_revenue :=
            PrimFloat.add (default 0%float (Player.revenue_usd player)) rev_inc in
          let '(unlocked, s2) :=
            if PrimFloat.leb 1000%float new_revenue
               && negb (bool_decide ("world_1" ∈ default [] (Player.unlocked_worlds player)))
            then (Some "world_1",
                  Database.update_one_by_id s1 (Player._id player)
                    (Database.addToSet_unlocked_worlds "world_1"))
            else (None, s1) in
          let s3 := Database.update_one_by_id s2 (Player._id player)
                      (Database.set_revenue_usd new_revenue) in
          (Ok (mkCompleteMilestoneResponse coins new_revenue unlocked
                 "¡Progreso registrado! Sigue avanzando."),
           Some s3)
      end
  end.

(** [GET /api/player/summary]. *)
Definition player_summary (email : string) (db : option store) : result PlayerSummary :=
  match db with
  | None => Raise Database_not_configured
  | Some s =>
      match Database.find_one_by_email s email with
      | None => Raise Player_not_found
      | Some player =>
          Ok (mkPlayerSummary (Player.name player) (Player.email player)
                (default 0 (Player.av_coins player))
                (default 0%float (Player.revenue_usd player))
                (default [] (Player.completed_milestones player))
                (default [] (Player.unlocked_worlds player)))
      end
  end.

End Handlers.

(** ** Well-formed stores

    Mongo keeps [_id] unique inside a collection; identifiers handed out so
    far are below the next fresh one. *)
Definition store_ok (s : store) : Prop :=
  NoDup (map Player._id (player s))
  /\ Forall (fun i => (i < next_oid s)%N) (map Player._id (player s)).

(** The completed milestones of a stored player, as the set that
    [complete_milestone] builds from them. *)
Definition completed_set (p : Player.doc) : gset string :=
  list_to_set (default [] (Player.completed_milestones p)).

(** The worlds a stored player has unlocked. *)
Definition unlocked_list (p : Player.doc) : list string :=
  default [] (Player.unlocked_worlds p).

(** The coins of a first completion at a given [speed]. *)
Definition award (speed : option string) : Z :=
  100 + default 30 (speed_rewards !! lower (str_or speed "normal")).

(** The revenue a call computes for a stored player. *)
Definition new_revenue_of (c : CompleteMilestoneRequest) (p : Player.doc) : float :=
  PrimFloat.add (default 0%float (Player.revenue_usd p)) (float_or_0 (revenue_increase c)).

(** Whether a call on a stored player unlocks ["world_1"]. *)
Definition unlocks (c : CompleteMilestoneRequest) (p : Player.doc) : bool :=
  PrimFloat.leb 1000%float (new_revenue_of c p)
  && negb (bool_decide ("world_1" ∈ unlocked_list p)).

(** The document that a call of [complete_milestone] leaves in place of the
    player [p] it found: the composition of the mutations it sends. *)
Definition player_after (c : CompleteMilestoneRequest) (p : Player.doc) : Player.doc :=
  let p1 :=
    if bool_decide (milestone_id c ∈ completed_set p) then p
    else Database.set_completed_inc_coins
           (elements (completed_set p ∪ {[ milestone_id c ]})) (award (speed c)) p in
  let p2 := if unlocks c p then Database.addToSet_unlocked_worlds "world_1" p1 else p1 in
  Database.set_revenue_usd (new_revenue_of c p) p2.

(** The reward documents that a call adds, given the player it found. *)
Definition rewards_added (c : CompleteMilestoneRequest) (p : Player.doc) : list Reward.fields :=
  if bool_decide (milestone_id c ∈ completed_set p) then []
  else [reward_item p (milestone_id c) (lower (str_or (speed c) "normal")) (award (speed c))].

(** The answer of a call, given the player it found. *)
Definition response_of (c : CompleteMilestoneRequest) (p : Player.doc) : CompleteMilestoneResponse :=
  mkCompleteMilestoneResponse
    (if bool_decide (milestone_id c ∈ completed_set p) then 0 else award (speed c))
    (new_revenue_of c p)
    (if unlocks c p then Some "world_1" else None)
    "¡Progreso registrado! Sigue avanzando.".

(** The store a call leaves, given the player it found. *)
Definition store_after (c : CompleteMilestoneRequest) (p : Player.doc) (s : store) : store :=
  mkstore
    (Database.update_first (fun q => N.eqb (Player._id q) (Player._id p))
       (fun _ => player_after c p) (player s))
    (milestone s)
    (reward s ++ map (Reward.mkdoc (next_oid s)) (rewards_added c p))
    (next_oid s + N.of_nat (length (rewards_added c p)))%N.

(** ** Sequences of calls *)

(** The calls of a list, made one after the other on the store; each call
    is paired with its answer. *)
Fixpoint run (calls : list CompleteMilestoneRequest) (db : option store)
    : list (CompleteMilestoneRequest * result CompleteMilestoneResponse) * option store :=
  match calls with
  | [] => ([], db)
  | c :: cs =>
      let '(r, db1) := complete_milestone c db in
      let '(rs, db2) := run cs db1 in
      ((c, r) :: rs, db2)
  end.

(** The coins an answer awards (a failed call awards none). *)
Definition coins_of (r : result CompleteMilestoneResponse) : Z :=
  match r with
  | Ok x => av_coins_awarded x
  | Raise _ => 0
  end.

(** Whether a call is for the player registered under [e] and the
    milestone [mid]. *)
Definition targets (e mid : string) (c : CompleteMilestoneRequest) : bool :=
  String.eqb (player_email c) e && String.eqb (milestone_id c) mid.

(** The coins awarded, in order, by the calls of a run that are for [e] and
    [mid]. *)
Definition coins_for (e mid : string)
    (outs : list (CompleteMilestoneRequest * result CompleteMilestoneResponse)) : list Z :=
  map (fun cr => coins_of (snd cr)) (List.filter (fun cr => targets e mid (fst cr)) outs).

(** The stored reward documents of player [pid] for milestone [mid]. *)
Definition rewards_for (pid : ObjectId) (mid : string) (s : store) : list Reward.doc :=
  List.filter
    (fun r => N.eqb (Reward.player_id (Reward.body r)) pid
              && bool_decide (Reward.milestone_id (Reward.body r) = Some mid))
    (reward s).

(** Whether an answer reports ["world_1"] as newly unlocked. *)
Definition reports_world_1 (r : result CompleteMilestoneResponse) : bool :=
  match r with
  | Ok x => bool_decide (unlocked_world x = Some "world_1")
  | Raise _ => false
  end.

(** The calls of a run for the player registered under [e] that report
    ["world_1"] as newly unlocked. *)
Definition unlock_reports (e : string)
    (outs : list (CompleteMilestoneRequest * result CompleteMilestoneResponse))
    : list (CompleteMilestoneRequest * result CompleteMilestoneResponse) :=
  List.filter (fun cr => String.eqb (player_email (fst cr)) e && reports_world_1 (snd cr)) outs.

(** The speed bonus in the words of the specification: case-insensitive,
    ["fast"] 50, ["normal"] 30, ["slow"] 15, anything else or nothing 30. *)
Definition speed_bonus_spec (speed : option string) : Z :=
  match speed with
  | None => 30
  | Some sp =>
      if String.eqb (lower sp) "fast" then 50
      else if String.eqb (lower sp) "normal" then 30
      else if String.eqb (lower sp) "slow" then 15
      else 30
  end.

(** ** A small store to run the handlers on *)

(** Every address that [EmailStr] accepts has an ["@"]; this check stands
    for [EmailStr] where a handler is run on concrete input. *)
Fixpoint has_at (e : string) : bool :=
  match e with
  | EmptyString => false
  | String c e' => Ascii.eqb c "@" || has_at e'
  end.

(** An address with the part after its first ["@"] in lower case. *)
Fixpoint lower_domain (e : string) : string :=
  match e with
  | EmptyString => EmptyString
  | String c e' => if Ascii.eqb c "@" then String c (lower e') else String c (lower_domain e')
  end.

(** A validation that stands for [EmailStr] where a handler is run on
    concrete input: like [EmailStr] it refuses an address without ["@"], and
    it returns an address with its domain in lower case. *)
Definition demo_EmailStr (e : string) : option string :=
  if has_at e then Some (lower_domain e) else None.

Definition demo_player : Player.doc := new_player "A" "a@x.com" 0%N.

Definition demo_store : store := mkstore [demo_player] [] [] 1%N.

Definition demo_call (mid : string) (sp : option string) (inc : option float)
    : CompleteMilestoneRequest :=
  mkCompleteMilestoneRequest "a@x.com" mid sp inc.

(** ** Repeated bootstraps *)

(** The catalog entries whose identifier no stored milestone has. *)
Definition missing_items (s : store) : list Milestone.fields :=
  List.filter
    (fun item => negb (bool_decide (Milestone.milestone_id item ∈ existing_milestone_ids s)))
    catalog.

(** Documents for [items] under consecutive fresh identifiers from [n]. *)
Fixpoint with_ids (n : ObjectId) (items : list Milestone.fields) : list Milestone.doc :=
  match items with
  | [] => []
  | x :: l => Milestone.mkdoc n x :: with_ids (N.succ n) l
  end.

(** [bootstrap] called [n] times in a row. *)
Fixpoint bootstrap_n (n : nat) (db : option store) : option store :=
  match n with
  | O => db
  | S n' => bootstrap_n n' (snd (bootstrap db))
  end.

(** The milestone identifier of a stored document. *)
Definition stored_id (d : Milestone.doc) : option string :=
  Milestone.milestone_id (Milestone.body d).

(** ** main.py: the database check *)



(** A byte of a UTF-8 text that continues a character begun before it. *)
Definition is_continuation (a : ascii) : bool :=
  let n := nat_of_ascii a in (128 <=? n)%nat && (n <? 192)%nat.

(** The number of characters of a UTF-8 text. *)
Fixpoint code_points (text : string) : nat :=
  match text with
  | EmptyString => O
  | String a rest =>
      if is_continuation a then code_points rest else S (code_points rest)
  end.

(** [text[:n]]: the first [n] characters of the text, a character being one
    code point, that is a byte that starts it and the bytes that continue
    it. *)
Fixpoint str_take (n : nat) (text : string) : string :=
  match text with
  | EmptyString => EmptyString
  | String a rest =>
      if is_continuation a then String a (str_take n rest)
      else match n with
           | O => EmptyString
           | S n' => String a (str_take n' rest)
           end
  end.


(** ** schemas.py: the constraints of the models *)

(** [class Milestone]: [milestone_id], [title] and [order] are required, and
    [order] is at least 1 ([title] is always there in the embedding). *)
Definition Milestone_valid (m : Milestone.fields) : bool :=
  match Milestone.milestone_id m, Milestone.order m with
  | Some _, Some n => 1 <=? n
  | _, _ => false
  end.

(** [class Reward]: [player_id], [reason] and [coins] are required (they are
    always there in the embedding), and [coins] is at least 0. *)
Definition Reward_valid (r : Reward.fields) : bool := 0 <=? Reward.coins r.

(** ** The application as a whole *)

(** The requests that the routes of [main.py] that touch the store accept. *)
Inductive request : Type :=
| POST_bootstrap
| POST_player (payload : CreatePlayer)
| GET_milestones
| POST_complete (payload : CompleteMilestoneRequest)
| GET_summary (email : string).

(** The store after a request is served; the two [GET] routes only read. *)
Definition serve (EmailStr : string -> option string) (db : option store) (r : request)
    : option store :=
  match r with
  | POST_bootstrap => snd (bootstrap db)
  | POST_player payload => snd (create_player EmailStr payload db)
  | POST_complete payload => snd (complete_milestone payload db)
  | GET_milestones => db
  | GET_summary _ => db
  end.

(** The store after the requests of a list are served one after the other. *)
Definition serve_all (EmailStr : string -> option string) (reqs : list request)
    (db : option store) : option store :=
  fold_left (serve EmailStr) reqs db.

(** A text of ASCII characters only; on such a text the embedded [lower]
    is Python's [str.lower]. *)
Fixpoint is_ascii (text : string) : bool :=
  match text with
  | EmptyString => true
  | String a rest => (nat_of_ascii a <? 128)%nat && is_ascii rest
  end.

(** A request that, if it registers, registers an address that [EmailStr]
    refuses or returns as it was submitted. *)
Definition registers_as_given (EmailStr : string -> option string) (r : request) : Prop :=
  match r with
  | POST_player payload =>
      EmailStr (cp_email payload) = None
      \/ EmailStr (cp_email payload) = Some (cp_email payload)
  | _ => True
  end.

(** The reward documents of player [pid], in stored order. *)
Definition rewards_of (pid : ObjectId) (s : store) : list Reward.fields :=
  List.filter (fun r => N.eqb (Reward.player_id r) pid) (map Reward.body (reward s)).

(** The coins of the reward documents of player [pid]. *)
Definition reward_total (pid : ObjectId) (s : store) : Z :=
  foldr Z.add 0 (map Reward.coins (rewards_of pid s)).

(** The coins that the calls of a run for the player registered under [e]
    award, added up. *)
Definition coins_total (e : string)
    (outs : list (CompleteMilestoneRequest * result CompleteMilestoneResponse)) : Z :=
  foldr Z.add 0
    (map (fun cr => coins_of (snd cr))
         (List.filter (fun cr => String.eqb (player_email (fst cr)) e) outs)).

(** The calls of a list that are for the player registered under [e]. *)
Definition calls_for (e : string) (calls : list CompleteMilestoneRequest)
    : list CompleteMilestoneRequest :=
  List.filter (fun c => String.eqb (player_email c) e) calls.

(** The balance and the revenue of a stored player, with the defaults that
    [player_summary] and [complete_milestone] read them with. *)
Definition balance (p : Player.doc) : Z := default 0 (Player.av_coins p).

Definition revenue (p : Player.doc) : float := default 0%float (Player.revenue_usd p).

(** The document of a player after calls for that player, made in order. *)
Definition replay (calls : list CompleteMilestoneRequest) (p : Player.doc) : Player.doc :=
  fold_left (fun q c => player_after c q) calls p.

(** ** What the handlers keep true of the store *)

(** A stored player has all its fields; its completed milestones are listed
    once each; its balance is between 115 and 150 coins per completed
    milestone; it has unlocked nothing or ["world_1"] alone, and ["world_1"]
    if its revenue is at least 1000. *)
Definition player_ok (p : Player.doc) : Prop :=
  exists n l u r,
    Player.av_coins p = Some n
    /\ Player.completed_milestones p = Some l
    /\ Player.unlocked_worlds p = Some u
    /\ Player.revenue_usd p = Some r
    /\ NoDup l
    /\ 115 * Z.of_nat (length l) <= n <= 150 * Z.of_nat (length l)
    /\ (u = [] \/ u = ["world_1"])
    /\ (PrimFloat.leb 1000%float r = true -> u = ["world_1"]).

(** The reward documents of a stored player add up to its balance, and
    they are for its completed milestones, one each. *)
Definition ledger_ok (s : store) (p : Player.doc) : Prop :=
  balance p = reward_total (Player._id p) s
  /\ Permutation (map Some (default [] (Player.completed_milestones p)))
                 (map Reward.milestone_id (rewards_of (Player._id p) s)).

(** A stored reward is for a stored player and grants 115, 130 or 150
    coins. *)
Definition reward_ok (s : store) (r : Reward.fields) : Prop :=
  In (Reward.player_id r) (map Player._id (player s))
  /\ (Reward.coins r = 115 \/ Reward.coins r = 130 \/ Reward.coins r = 150).

Definition store_inv (EmailStr : string -> option string) (s : store) : Prop :=
  store_ok s
  /\ Forall (fun p => exists raw, EmailStr raw = Some (Player.email p)) (player s)
  /\ Forall player_ok (player s)
  /\ Forall (ledger_ok s) (player s)
  /\ Forall (reward_ok s) (map Reward.body (reward s))
  /\ (milestone s = [] \/ map Milestone.body (milestone s) = catalog).

(** ** Facts about the storage adapter *)

Section StoreFacts.

Import Database.

Lemma update_first_twice {A : Type} (P : A -> bool) (f g : A -> A) (l : list A) :
  (forall x, P (f x) = P x) ->
  update_first P g (update_first P f l) = update_first P (fun x => g (f x)) l.
Proof.
  intros HP. induction l as [|x l IH]; simpl; [reflexivity|].
  destruct (P x) eqn:E; simpl.
  - rewrite HP, E. reflexivity.
  - rewrite E, IH. reflexivity.
Qed.

Lemma update_first_ext {A : Type} (P : A -> bool) (f g : A -> A) (l : list A) :
  (forall x, In x l -> P x = true -> f x = g x) ->
  update_first P f l = update_first P g l.
Proof.
  induction l as [|x l IH]; simpl; intros H; [reflexivity|].
  destruct (P x) eqn:E.
  - rewrite (H x); auto.
  - rewrite IH; auto.
Qed.

Lemma update_first_map {A B : Type} (P : A -> bool) (f : A -> A) (h : A -> B) (l : list A) :
  (forall x, P x = true -> h (f x) = h x) -> map h (update_first P f l) = map h l.
Proof.
  intros H. induction l as [|x l IH]; simpl; [reflexivity|].
  destruct (P x) eqn:E; simpl; [rewrite H by assumption | rewrite IH]; reflexivity.
Qed.

Lemma NoDup_map_inj {A B : Type} (h : A -> B) (l : list A) (x y : A) :
  NoDup (map h l) -> In x l -> In y l -> h x = h y -> x = y.
Proof.
  induction l as [|z l IH]; simpl; [contradiction|].
  intros Hnd Hx Hy Heq. inversion Hnd as [|? ? Hz Hnd']; subst.
  destruct Hx as [-> | Hx], Hy as [-> | Hy]; try reflexivity.
  - exfalso. apply Hz, list_elem_of_In. rewrite Heq. apply in_map. assumption.
  - exfalso. apply Hz, list_elem_of_In. rewrite <- Heq. apply in_map. assumption.
  - apply IH; assumption.
Qed.

Lemma find_email_In (l : list Player.doc) (e : string) (p : Player.doc) :
  List.find (fun q => String.eqb (Player.email q) e) l = Some p ->
  In p l /\ Player.email p = e.
Proof.
  intros H. apply find_some in H as [Hin He]. split; [assumption|].
  apply String.eqb_eq. assumption.
Qed.

(** Updating by the [_id] of the document found by email replaces that
    very document, and the lookups by any other email are as before. *)
Lemma find_update_first (l : list Player.doc) (e e' : string) (p : Player.doc)
      (f : Player.doc -> Player.doc) :
  NoDup (map Player._id l) ->
  (forall q, Player.email (f q) = Player.email q) ->
  List.find (fun q => String.eqb (Player.email q) e) l = Some p ->
  List.find (fun q => String.eqb (Player.email q) e')
            (update_first (fun q => N.eqb (Player._id q) (Player._id p)) f l)
  = if String.eqb e e' then Some (f p)
    else List.find (fun q => String.eqb (Player.email q) e') l.
Proof.
  intros Hnd Hf. induction l as [|x l IH]; simpl; [discriminate|].
  inversion Hnd as [|? ? Hx Hnd']; subst.
  destruct (String.eqb (Player.email x) e) eqn:Ex.
  - intros [= ->]. rewrite N.eqb_refl. simpl. rewrite Hf.
    apply String.eqb_eq in Ex. subst e.
    destruct (String.eqb (Player.email p) e'); reflexivity.
  - intros Hfind. destruct (find_email_In _ _ _ Hfind) as [Hin He].
    assert (Hne : N.eqb (Player._id x) (Player._id p) = false).
    { apply N.eqb_neq. intros Heq. apply Hx, list_elem_of_In. rewrite Heq. apply in_map. assumption. }
    rewrite Hne. simpl.
    destruct (String.eqb (Player.email x) e') eqn:Ex'.
    + destruct (String.eqb e e') eqn:Eee; [|reflexivity].
      apply String.eqb_eq in Eee. subst e'. congruence.
    + apply IH; assumption.
Qed.

(** The same update, seen on the whole collection: only the found
    document changes. *)
Lemma update_first_found (l : list Player.doc) (e : string) (p : Player.doc)
      (f : Player.doc -> Player.doc) :
  NoDup (map Player._id l) ->
  List.find (fun q => String.eqb (Player.email q) e) l = Some p ->
  update_first (fun q => N.eqb (Player._id q) (Player._id p)) f l
  = update_first (fun q => N.eqb (Player._id q) (Player._id p)) (fun _ => f p) l.
Proof.
  intros Hnd Hfind. apply update_first_ext. intros x Hx Hid.
  apply N.eqb_eq in Hid. destruct (find_email_In _ _ _ Hfind) as [Hin _].
  f_equal. clear Hfind.
  induction l as [|y l IH]; [contradiction|].
  inversion Hnd as [|? ? Hy Hnd']; subst. simpl in Hx, Hin.
  destruct Hx as [-> | Hx], Hin as [-> | Hin]; try reflexivity.
  - exfalso. apply Hy, list_elem_of_In. rewrite Hid. apply in_map. assumption.
  - exfalso. apply Hy, list_elem_of_In. rewrite <- Hid. apply in_map. assumption.
  - apply IH; assumption.
Qed.

End StoreFacts.

(** ** What one call of [complete_milestone] does *)

Lemma player_after_id (c : CompleteMilestoneRequest) (p : Player.doc) :
  Player._id (player_after c p) = Player._id p.
Proof.
  unfold player_after. destruct (bool_decide _), (unlocks c p); reflexivity.
Qed.

Lemma player_after_email (c : CompleteMilestoneRequest) (p : Player.doc) :
  Player.email (player_after c p) = Player.email p.
Proof.
  unfold player_after. destruct (bool_decide _), (unlocks c p); reflexivity.
Qed.

Lemma complete_milestone_found (c : CompleteMilestoneRequest) (s : store) (p : Player.doc) :
  store_ok s ->
  Database.find_one_by_email s (player_email c) = Some p ->
  complete_milestone c (Some s) = (Ok (response_of c p), Some (store_after c p s)).
Proof.
  intros [Hnd _] Hfind. unfold complete_milestone. rewrite Hfind.
  unfold Database.find_one_by_email in Hfind.
  unfold response_of, store_after, rewards_added, player_after.
  fold (completed_set p). fold (new_revenue_of c p). fold (unlocked_list p).
  fold (award (speed c)). fold (unlocks c p).
  destruct (bool_decide (milestone_id c ∈ completed_set p)) eqn:Hdup;
    destruct (unlocks c p) eqn:Hun; cbn [fst snd];
    unfold Database.update_one_by_id, Database.create_document_reward;
    cbn [player milestone reward next_oid snd map length];
    rewrite ?app_nil_r, ?N.add_0_r, ?N.add_1_r;
    repeat (rewrite update_first_twice by (intros; reflexivity));
    rewrite (update_first_found _ _ _ _ Hnd Hfind); reflexivity.
Qed.

Lemma store_after_ok (c : CompleteMilestoneRequest) (p : Player.doc) (s : store) :
  store_ok s -> store_ok (store_after c p s).
Proof.
  intros [Hnd Hlt]. unfold store_ok, store_after. cbn [player next_oid].
  rewrite update_first_map.
  - split; [assumption|]. eapply Forall_impl; [exact Hlt|]. cbn. intros i Hi. lia.
  - intros x Hx. apply N.eqb_eq in Hx. rewrite player_after_id. congruence.
Qed.

Lemma find_store_after (c : CompleteMilestoneRequest) (p : Player.doc) (s : store) (e : string) :
  store_ok s ->
  Database.find_one_by_email s (player_email c) = Some p ->
  Database.find_one_by_email (store_after c p s) e
  = if String.eqb (player_email c) e then Some (player_after c p)
    else Database.find_one_by_email s e.
Proof.
  intros [Hnd _] Hfind. unfold Database.find_one_by_email, store_after in *. cbn [player].
  rewrite <- (update_first_found _ _ _ (player_after c) Hnd Hfind).
  apply find_update_first; [assumption | apply player_after_email | assumption].
Qed.

Lemma completed_set_after (c : CompleteMilestoneRequest) (p : Player.doc) :
  completed_set (player_after c p) = completed_set p ∪ {[ milestone_id c ]}.
Proof.
  unfold player_after.
  destruct (bool_decide (milestone_id c ∈ completed_set p)) eqn:Hdup.
  - apply bool_decide_eq_true in Hdup.
    transitivity (completed_set p).
    + destruct (unlocks c p); reflexivity.
    + apply set_eq. intros x. rewrite elem_of_union, elem_of_singleton.
      split; [tauto | intros [Hx | ->]; assumption].
  - transitivity (list_to_set (C := gset string)
                    (elements (completed_set p ∪ {[ milestone_id c ]}))).
    + destruct (unlocks c p); reflexivity.
    + apply list_to_set_elements_L.
Qed.

(** One call, seen from the player registered under [e]: the call is
    answered, the store stays well formed, and the player's document is the
    one [player_after] describes when the call is for [e], and is untouched
    otherwise. *)
Lemma complete_milestone_step (c : CompleteMilestoneRequest) (s : store) (e : string)
      (p : Player.doc) :
  store_ok s ->
  Database.find_one_by_email s e = Some p ->
  exists s1,
    snd (complete_milestone c (Some s)) = Some s1
    /\ store_ok s1
    /\ Database.find_one_by_email s1 e
       = Some (if String.eqb (player_email c) e then player_after c p else p)
    /\ (player_email c = e ->
        complete_milestone c (Some s) = (Ok (response_of c p), Some (store_after c p s))).
Proof.
  intros Hok Hfind.
  destruct (String.eqb (player_email c) e) eqn:Ee.
  - apply String.eqb_eq in Ee. subst e.
    exists (store_after c p s). rewrite (complete_milestone_found c s p Hok Hfind).
    repeat split; try (apply store_after_ok; assumption).
    rewrite (find_store_after c p s _ Hok Hfind), String.eqb_refl. reflexivity.
  - destruct (Database.find_one_by_email s (player_email c)) as [p2|] eqn:Hfind2.
    + exists (store_after c p2 s). rewrite (complete_milestone_found c s p2 Hok Hfind2).
      repeat split; try (apply store_after_ok; assumption).
      * rewrite (find_store_after c p2 s _ Hok Hfind2), Ee. assumption.
      * intros Heq. rewrite Heq, String.eqb_refl in Ee. discriminate.
    + exists s. unfold complete_milestone. rewrite Hfind2. cbn.
      split; [reflexivity|]. split; [assumption|]. split; [assumption|].
      intros Heq. rewrite Heq, String.eqb_refl in Ee. discriminate.
Qed.

(** The reward documents of the player registered under [e] for [mid] grow
    by one in a call for [e] and [mid] that is a first completion, and are
    untouched by every other call. *)
Lemma complete_milestone_step_rewards (c : CompleteMilestoneRequest) (s s1 : store)
      (e mid : string) (p : Player.doc) :
  store_ok s ->
  Database.find_one_by_email s e = Some p ->
  snd (complete_milestone c (Some s)) = Some s1 ->
  rewards_for (Player._id p) mid s1
  = rewards_for (Player._id p) mid s
    ++ (if targets e mid c && negb (bool_decide (mid ∈ completed_set p))
        then [Reward.mkdoc (next_oid s)
                (reward_item p mid (lower (str_or (speed c) "normal")) (award (speed c)))]
        else []).
Proof.
  intros Hok Hfind Hsnd.
  destruct (Database.find_one_by_email s (player_email c)) as [p2|] eqn:Hfind2.
  - rewrite (complete_milestone_found c s p2 Hok Hfind2) in Hsnd.
    cbn in Hsnd. injection Hsnd as <-.
    unfold rewards_for, store_after. cbn [reward]. rewrite List.filter_app. f_equal.
    unfold rewards_added, targets.
    destruct (String.eqb (player_email c) e) eqn:Ee.
    + apply String.eqb_eq in Ee. subst e.
      assert (p2 = p) by congruence. subst p2.
      destruct (String.eqb (milestone_id c) mid) eqn:Em.
      * apply String.eqb_eq in Em. subst mid.
        destruct (bool_decide (milestone_id c ∈ completed_set p)); cbn; [reflexivity|].
        rewrite N.eqb_refl, bool_decide_eq_true_2 by reflexivity. reflexivity.
      * apply String.eqb_neq in Em.
        destruct (bool_decide (milestone_id c ∈ completed_set p)); cbn; [reflexivity|].
        rewrite bool_decide_eq_false_2 by congruence.
        rewrite andb_false_r. reflexivity.
    + cbn [andb].
      destruct (bool_decide (milestone_id c ∈ completed_set p2)); cbn; [reflexivity|].
      assert (Hne : N.eqb (Player._id p2) (Player._id p) = false).
      { apply N.eqb_neq. intros Heq.
        destruct Hok as [Hnd _].
        destruct (find_email_In _ _ _ Hfind) as [Hin He].
        destruct (find_email_In _ _ _ Hfind2) as [Hin2 He2].
        assert (p2 = p) by (eapply NoDup_map_inj; eassumption).
        subst p2. rewrite <- He, He2, String.eqb_refl in Ee. discriminate. }
      rewrite Hne. reflexivity.
  - unfold complete_milestone in Hsnd. rewrite Hfind2 in Hsnd. cbn in Hsnd.
    injection Hsnd as <-.
    assert (Ee : String.eqb (player_email c) e = false).
    { apply String.eqb_neq. intros Heq. rewrite Heq in Hfind2. congruence. }
    unfold targets. rewrite Ee. cbn. rewrite app_nil_r. reflexivity.
Qed.

(** A run from a store where the player registered under [e] is [p]: the
    first call for [e] and [mid] awards the coins of a first completion
    unless [mid] was completed before, every later one awards nothing, and
    one reward document for [mid] is written with the coins, none otherwise. *)
Lemma run_awards (calls : list CompleteMilestoneRequest) :
  forall (s : store) (e mid : string) (p : Player.doc),
  store_ok s ->
  Database.find_one_by_email s e = Some p ->
  exists s' p',
    snd (run calls (Some s)) = Some s'
    /\ store_ok s'
    /\ Database.find_one_by_email s' e = Some p'
    /\ Player._id p' = Player._id p
    /\ coins_for e mid (fst (run calls (Some s)))
       = match List.filter (targets e mid) calls with
         | [] => []
         | c :: rest =>
             (if bool_decide (mid ∈ completed_set p) then 0 else award (speed c))
             :: map (fun _ => 0) rest
         end
    /\ bool_decide (mid ∈ completed_set p')
       = bool_decide (mid ∈ completed_set p)
         || match List.filter (targets e mid) calls with [] => false | _ => true end
    /\ length (rewards_for (Player._id p) mid s')
       = (length (rewards_for (Player._id p) mid s)
          + (if bool_decide (mid ∈ completed_set p) then 0
             else match List.filter (targets e mid) calls with [] => 0 | _ => 1 end))%nat.
Proof.
  induction calls as [|c cs IH]; intros s e mid p Hok Hfind.
  - exists s, p. cbn. rewrite orb_false_r.
    do 4 (split; [first [assumption | reflexivity]|]).
    split; [reflexivity|]. split; [reflexivity|].
    destruct (bool_decide (mid ∈ completed_set p)); lia.
  - destruct (complete_milestone_step c s e p Hok Hfind) as (s1 & Hsnd & Hok1 & Hfind1 & Hres).
    pose proof (complete_milestone_step_rewards c s s1 e mid p Hok Hfind Hsnd) as Hrew.
    destruct (IH s1 e mid _ Hok1 Hfind1) as (s' & p' & Hs' & Hok' & Hfind' & Hid' & Hcoins & Hdone & Hlen).
    exists s', p'. cbn [run].
    destruct (complete_milestone c (Some s)) as [r db1] eqn:Hc. cbn in Hsnd. subst db1.
    destruct (run cs (Some s1)) as [rs db2] eqn:Hr. cbn [fst snd] in *.
    split; [assumption|]. split; [assumption|]. split; [assumption|].
    assert (Hid1 : Player._id (if String.eqb (player_email c) e then player_after c p else p)
                   = Player._id p).
    { destruct (String.eqb (player_email c) e); [apply player_after_id | reflexivity]. }
    rewrite Hid1 in Hid', Hlen. split; [assumption|].
    rewrite Hlen, Hrew, length_app. clear Hlen Hrew.
    unfold coins_for in *. cbn [List.filter fst snd].
    unfold targets in *.
    destruct (String.eqb (player_email c) e) eqn:Ee; cbn [andb].
    + apply String.eqb_eq in Ee. specialize (Hres Ee). injection Hres as Hr0.
      assert (Hset : forall x, bool_decide (x ∈ completed_set (player_after c p))
                               = bool_decide (x ∈ completed_set p)
                                 || String.eqb (milestone_id c) x).
      { intros x. rewrite completed_set_after.
        destruct (String.eqb (milestone_id c) x) eqn:Ex.
        - apply String.eqb_eq in Ex. subst x. rewrite orb_true_r.
          apply bool_decide_eq_true_2. apply elem_of_union_r, elem_of_singleton. reflexivity.
        - apply String.eqb_neq in Ex. rewrite orb_false_r.
          apply bool_decide_ext. rewrite elem_of_union, elem_of_singleton.
          split; [intros [Hx|Hx]; [assumption | congruence] | tauto]. }
      rewrite Hset in Hcoins, Hdone |- *.
      destruct (String.eqb (milestone_id c) mid) eqn:Em.
      * subst r. cbn [map fst snd coins_of response_of av_coins_awarded].
        apply String.eqb_eq in Em. rewrite Em.
        rewrite orb_true_r in Hcoins, Hdone. rewrite Hcoins, Hdone.
        split; [|split].
        -- f_equal. destruct (List.filter _ cs); reflexivity.
        -- rewrite orb_true_r. reflexivity.
        -- destruct (bool_decide (mid ∈ completed_set p)); cbn; lia.
      * rewrite orb_false_r in Hcoins, Hdone. rewrite Hcoins, Hdone.
        split; [reflexivity|]. split; [reflexivity|].
        destruct (bool_decide (mid ∈ completed_set p)); cbn; lia.
    + rewrite Hcoins, Hdone. split; [reflexivity|]. split; [reflexivity|]. cbn. lia.
Qed.

Lemma speed_rewards_lookup (k : string) :
  speed_rewards !! k
  = if String.eqb k "fast" then Some 50
    else if String.eqb k "normal" then Some 30
    else if String.eqb k "slow" then Some 15
    else None.
Proof.
  unfold speed_rewards.
  destruct (String.eqb k "fast") eqn:E1.
  { apply String.eqb_eq in E1. subst k. reflexivity. }
  destruct (String.eqb k "normal") eqn:E2.
  { apply String.eqb_eq in E2. subst k. reflexivity. }
  destruct (String.eqb k "slow") eqn:E3.
  { apply String.eqb_eq in E3. subst k. reflexivity. }
  apply String.eqb_neq in E1, E2, E3.
  rewrite !lookup_insert_ne by congruence. apply lookup_singleton_ne. congruence.
Qed.

(** The answer of a call that finds its player, whatever the store. *)
Lemma complete_milestone_response (c : CompleteMilestoneRequest) (s : store) (p : Player.doc) :
  Database.find_one_by_email s (player_email c) = Some p ->
  fst (complete_milestone c (Some s)) = Ok (response_of c p).
Proof.
  intros Hfind. unfold complete_milestone. rewrite Hfind.
  unfold response_of.
  fold (completed_set p). fold (new_revenue_of c p). fold (unlocked_list p).
  fold (award (speed c)). fold (unlocks c p).
  destruct (bool_decide (milestone_id c ∈ completed_set p));
    destruct (unlocks c p); reflexivity.
Qed.

Lemma update_first_split (l : list Player.doc) (e : string) (p : Player.doc)
      (f : Player.doc -> Player.doc) :
  NoDup (map Player._id l) ->
  List.find (fun q => String.eqb (Player.email q) e) l = Some p ->
  exists l1 l2,
    l = l1 ++ p :: l2
    /\ Database.update_first (fun q => N.eqb (Player._id q) (Player._id p)) f l
       = l1 ++ f p :: l2.
Proof.
  intros Hnd. induction l as [|x l IH]; cbn; [discriminate|].
  inversion Hnd as [|? ? Hx Hnd']; subst.
  destruct (String.eqb (Player.email x) e) eqn:Ex.
  - intros [= ->]. exists [], l. rewrite N.eqb_refl. split; reflexivity.
  - intros Hfind. destruct (find_email_In _ _ _ Hfind) as [Hin _].
    destruct (IH Hnd' Hfind) as (l1 & l2 & Hl & Hu).
    exists (x :: l1), l2.
    assert (Hne : N.eqb (Player._id x) (Player._id p) = false).
    { apply N.eqb_neq. intros Heq. apply Hx, list_elem_of_In. rewrite Heq.
      apply in_map. assumption. }
    rewrite Hne, Hu, Hl at 1. split; reflexivity.
Qed.

Lemma demo_store_ok : store_ok demo_store.
Proof.
  split.
  - apply (bool_decide_unpack _). vm_compute. exact I.
  - repeat constructor.
Qed.

Lemma sum_coins_first (a : Z) (l : list CompleteMilestoneRequest) :
  foldr Z.add 0 (a :: map (fun _ => 0) l) = a.
Proof.
  cbn. induction l as [|x l IH]; cbn; lia.
Qed.

(** The stores that the handlers can reach are well formed. *)
Lemma empty_store_ok : store_ok empty_store.
Proof.
  split; [apply NoDup_nil_2 | constructor].
Qed.

(** ** The scenarios of the specification, run *)

Example lower_mixed_case : lower "FaSt" = "fast".
Proof. reflexivity. Qed.

Example register_on_empty_store :
  create_player demo_EmailStr (mkCreatePlayer "A" "a@x.com") (Some empty_store)
  = (Ok 0%N, Some demo_store).
Proof. reflexivity. Qed.

Example register_mixed_case_twice :
  option_map (fun s => map (fun p => (Player._id p, Player.email p)) (player s))
    (serve_all demo_EmailStr
       [POST_player (mkCreatePlayer "B" "b@X.COM");
        POST_player (mkCreatePlayer "B" "b@X.COM")]
       (Some empty_store))
  = Some [(0%N, "b@x.com"); (1%N, "b@x.com")].
Proof. reflexivity. Qed.

Example str_take_counts_code_points :
  str_take 2 "éèà" = "éè" /\ code_points "éèà" = 3%nat /\ String.length "éèà" = 6%nat.
Proof. repeat split. Qed.

Example complete_fast_then_slow :
  map (fun cr => match snd cr with
                 | Ok x => Some (av_coins_awarded x, revenue_usd x, unlocked_world x)
                 | Raise _ => None
                 end)
      (fst (run [demo_call "m1" (Some "fast") None;
                 demo_call "m1" (Some "slow") (Some 1000%float)]
                (Some demo_store)))
  = [Some (150, 0%float, None); Some (0, 1000%float, Some "world_1")].
Proof. vm_compute. reflexivity. Qed.

Example three_times_400 :
  map (fun cr => match snd cr with
                 | Ok x => Some (revenue_usd x, unlocked_world x)
                 | Raise _ => None
                 end)
      (fst (run [demo_call "m1" None (Some 400%float);
                 demo_call "m2" None (Some 400%float);
                 demo_call "m3" None (Some 400%float);
                 demo_call "m3" None None]
                (Some demo_store)))
  = [Some (400%float, None); Some (800%float, None);
     Some (1200%float, Some "world_1"); Some (1200%float, None)].
Proof. vm_compute. reflexivity. Qed.

Example summary_of_unknown_email :
  player_summary "nobody@x.com" (Some demo_store) = Raise Player_not_found.
Proof. reflexivity. Qed.

(** The answer, the store and the player's document after a call that
    finds the player [p] in the store [s]. *)
Ltac answer_of_call c p s :=
  exists (response_of c p), (store_after c p s), (player_after c p);
  split; [apply complete_milestone_found; assumption|].

(** The player found under the same email after such a call. *)
Ltac found_again Hok Hfind :=
  rewrite (find_store_after _ _ _ _ Hok Hfind), String.eqb_refl; reflexivity.

(** ** The claims *)

(** C1. Whatever calls are made, in whatever order, the calls for one player
    and one milestone id award coins at most once: the first such call awards
    the coins of a first completion unless the id was in the player's
    completed set already, and puts the id in that set; every later one
    awards 0; the total is that single award; and the reward documents of the
    player for that id grow by one exactly when the coins are awarded. *)
Theorem complete_milestone_awards_once (s : store) (e mid : string) (p : Player.doc)
        (calls : list CompleteMilestoneRequest) :
  store_ok s ->
  Database.find_one_by_email s e = Some p ->
  let outs := fst (run calls (Some s)) in
  let mine := List.filter (targets e mid) calls in
  let done := bool_decide (mid ∈ completed_set p) in
  coins_for e mid outs
  = match mine with
    | [] => []
    | c :: rest => (if done then 0 else award (speed c)) :: map (fun _ => 0) rest
    end
  /\ foldr Z.add 0 (coins_for e mid outs)
     = match mine with
       | [] => 0
       | c :: _ => if done then 0 else award (speed c)
       end
  /\ exists s' p',
       snd (run calls (Some s)) = Some s'
       /\ Database.find_one_by_email s' e = Some p'
       /\ bool_decide (mid ∈ completed_set p')
          = done || match mine with [] => false | _ => true end
       /\ length (rewards_for (Player._id p) mid s')
          = (length (rewards_for (Player._id p) mid s)
             + (if done then 0 else match mine with [] => 0 | _ => 1 end))%nat.
Proof.
  intros Hok Hfind outs mine done.
  destruct (run_awards calls s e mid p Hok Hfind)
    as (s' & p' & Hs' & _ & Hfind' & _ & Hcoins & Hdone & Hlen).
  fold outs in Hcoins. fold mine done in Hcoins, Hdone, Hlen.
  split; [exact Hcoins|]. split.
  - rewrite Hcoins. destruct mine as [|c rest]; [reflexivity|].
    apply sum_coins_first.
  - exists s', p'. auto.
Qed.

Lemma complete_milestone_awards_once_witness :
  store_ok demo_store
  /\ Database.find_one_by_email demo_store "a@x.com" = Some demo_player
  /\ coins_for "a@x.com" "m1"
       (fst (run [demo_call "m1" (Some "FAST") None;
                  demo_call "m2" None (Some 400%float);
                  demo_call "m1" (Some "slow") (Some 1000%float)]
                 (Some demo_store)))
     = [150; 0].
Proof.
  split; [exact demo_store_ok|]. split; [reflexivity|].
  apply (complete_milestone_awards_once demo_store "a@x.com" "m1" demo_player
           [demo_call "m1" (Some "FAST") None;
            demo_call "m2" None (Some 400%float);
            demo_call "m1" (Some "slow") (Some 1000%float)]
           demo_store_ok eq_refl).
Defined.

(** C2. A call that finds its player and whose milestone id is not in the
    player's completed set awards 100 plus the speed bonus, which is read
    from the speed without regard to case: 150 for ["fast"], 130 for
    ["normal"], 115 for ["slow"], and 130 for any other speed or none. *)
Theorem complete_milestone_first_award (c : CompleteMilestoneRequest) (s : store)
        (p : Player.doc) :
  Database.find_one_by_email s (player_email c) = Some p ->
  milestone_id c ∉ completed_set p ->
  exists resp,
    fst (complete_milestone c (Some s)) = Ok resp
    /\ av_coins_awarded resp = 100 + speed_bonus_spec (speed c)
    /\ (forall sp, speed c = Some sp -> lower sp = "fast" -> av_coins_awarded resp = 150)
    /\ (forall sp, speed c = Some sp -> lower sp = "normal" -> av_coins_awarded resp = 130)
    /\ (forall sp, speed c = Some sp -> lower sp = "slow" -> av_coins_awarded resp = 115)
    /\ (forall sp, speed c = Some sp ->
        lower sp <> "fast" -> lower sp <> "normal" -> lower sp <> "slow" ->
        av_coins_awarded resp = 130)
    /\ (speed c = None -> av_coins_awarded resp = 130).
Proof.
  intros Hfind Hnew. exists (response_of c p).
  split; [apply complete_milestone_response; assumption|].
  assert (Hcoins : av_coins_awarded (response_of c p) = 100 + speed_bonus_spec (speed c)).
  { unfold response_of. cbn [av_coins_awarded].
    rewrite bool_decide_eq_false_2 by assumption.
    unfold award, speed_bonus_spec. rewrite speed_rewards_lookup.
    destruct (speed c) as [[|a sp]|]; [reflexivity| |reflexivity].
    cbn [str_or].
    destruct (String.eqb (lower (String a sp)) "fast"); [reflexivity|].
    destruct (String.eqb (lower (String a sp)) "normal"); [reflexivity|].
    destruct (String.eqb (lower (String a sp)) "slow"); reflexivity. }
  split; [exact Hcoins|]. rewrite Hcoins. unfold speed_bonus_spec.
  repeat split.
  - intros sp -> ->. reflexivity.
  - intros sp -> ->. reflexivity.
  - intros sp -> ->. reflexivity.
  - intros sp -> H1 H2 H3. apply String.eqb_neq in H1, H2, H3.
    rewrite H1, H2, H3. reflexivity.
  - intros ->. reflexivity.
Qed.

Lemma complete_milestone_first_award_witness :
  exists resp,
    fst (complete_milestone (demo_call "m1" (Some "FaSt") None) (Some demo_store)) = Ok resp
    /\ av_coins_awarded resp = 150.
Proof.
  destruct (complete_milestone_first_award (demo_call "m1" (Some "FaSt") None)
              demo_store demo_player eq_refl) as (resp & Hr & _ & Hfast & _).
  - apply (bool_decide_unpack _). vm_compute. exact I.
  - exists resp. split; [exact Hr|]. apply (Hfast "FaSt"); reflexivity.
Defined.

Lemma unlocked_list_after (c : CompleteMilestoneRequest) (p : Player.doc) :
  unlocked_list (player_after c p)
  = unlocked_list p ++ (if unlocks c p then ["world_1"] else []).
Proof.
  unfold player_after. destruct (unlocks c p) eqn:Hun.
  - unfold unlocks in Hun. apply andb_true_iff in Hun as [_ Hnot].
    apply negb_true_iff in Hnot.
    destruct (bool_decide (milestone_id c ∈ completed_set p));
      unfold unlocked_list in *; cbn; rewrite Hnot; reflexivity.
  - rewrite app_nil_r.
    destruct (bool_decide (milestone_id c ∈ completed_set p)); reflexivity.
Qed.

Lemma reports_world_1_response (c : CompleteMilestoneRequest) (p : Player.doc) :
  reports_world_1 (Ok (response_of c p)) = unlocks c p.
Proof.
  unfold reports_world_1, response_of. cbn [unlocked_world].
  destruct (unlocks c p); reflexivity.
Qed.

(** A run from a store where the player registered under [e] is [p]: each
    call for [e] that reports ["world_1"] appends it to the player's unlocked
    worlds, nothing else changes them, and there is no such report once
    ["world_1"] is among them. *)
Lemma run_unlocks (e : string) (calls : list CompleteMilestoneRequest) :
  forall (s : store) (p : Player.doc),
  store_ok s ->
  Database.find_one_by_email s e = Some p ->
  exists s' p',
    snd (run calls (Some s)) = Some s'
    /\ Database.find_one_by_email s' e = Some p'
    /\ unlocked_list p'
       = unlocked_list p
         ++ map (fun _ => "world_1") (unlock_reports e (fst (run calls (Some s))))
    /\ (length (unlock_reports e (fst (run calls (Some s))))
        <= if bool_decide ("world_1" ∈ unlocked_list p) then 0 else 1)%nat.
Proof.
  induction calls as [|c cs IH]; intros s p Hok Hfind.
  - exists s, p. cbn. rewrite app_nil_r.
    do 3 (split; [first [assumption | reflexivity]|]).
    destruct (bool_decide ("world_1" ∈ unlocked_list p)); lia.
  - destruct (complete_milestone_step c s e p Hok Hfind) as (s1 & Hsnd & Hok1 & Hfind1 & Hres).
    destruct (IH s1 _ Hok1 Hfind1) as (s' & p' & Hs' & Hfind' & Hlist & Hlen).
    exists s', p'. cbn [run].
    destruct (complete_milestone c (Some s)) as [r db1] eqn:Hc. cbn in Hsnd. subst db1.
    destruct (run cs (Some s1)) as [rs db2] eqn:Hr. cbn [fst snd] in *.
    split; [assumption|]. split; [assumption|].
    unfold unlock_reports in *. cbn [List.filter fst snd].
    destruct (String.eqb (player_email c) e) eqn:Ee; cbn [andb].
    + apply String.eqb_eq in Ee. specialize (Hres Ee). injection Hres as Hr0.
      subst r. rewrite reports_world_1_response.
      rewrite unlocked_list_after in Hlist, Hlen.
      destruct (unlocks c p) eqn:Hun.
      * unfold unlocks in Hun. apply andb_true_iff in Hun as [_ Hnot].
        apply negb_true_iff in Hnot. rewrite Hnot.
        rewrite bool_decide_eq_true_2 in Hlen
          by (apply elem_of_app; right; apply list_elem_of_singleton; reflexivity).
        rewrite <- app_assoc in Hlist. cbn [map length app] in *.
        split; [exact Hlist | lia].
      * rewrite app_nil_r in Hlist, Hlen. split; assumption.
    + split; assumption.
Qed.

(** C3. Every call that finds its player, whether or not the milestone id
    was completed before, computes the new revenue as the player's stored
    revenue plus the revenue increase (0 when the increase is absent),
    answers with it, and leaves it stored in the player's document. *)
Theorem complete_milestone_revenue (c : CompleteMilestoneRequest) (s : store) (p : Player.doc) :
  store_ok s ->
  Database.find_one_by_email s (player_email c) = Some p ->
  exists resp s' p',
    complete_milestone c (Some s) = (Ok resp, Some s')
    /\ Database.find_one_by_email s' (player_email c) = Some p'
    /\ Player.revenue_usd p' = Some (revenue_usd resp)
    /\ revenue_usd resp
       = PrimFloat.add (default 0%float (Player.revenue_usd p))
                       (float_or_0 (revenue_increase c))
    /\ (revenue_increase c = None ->
        revenue_usd resp = PrimFloat.add (default 0%float (Player.revenue_usd p)) 0%float)
    /\ (forall x, revenue_increase c = Some x -> PrimFloat.eqb x 0%float = false ->
        revenue_usd resp = PrimFloat.add (default 0%float (Player.revenue_usd p)) x)
    /\ (forall x, revenue_increase c = Some x -> PrimFloat.eqb x 0%float = true ->
        revenue_usd resp = PrimFloat.add (default 0%float (Player.revenue_usd p)) 0%float).
Proof.
  intros Hok Hfind.
  answer_of_call c p s.
  split; [found_again Hok Hfind|].
  split; [reflexivity|]. split; [reflexivity|].
  cbn [response_of revenue_usd]. unfold new_revenue_of, float_or_0.
  repeat split.
  - intros ->. reflexivity.
  - intros x -> ->. reflexivity.
  - intros x -> ->. reflexivity.
Qed.

Lemma complete_milestone_revenue_witness :
  exists resp s' p',
    complete_milestone (demo_call "m1" None (Some 400%float)) (Some demo_store)
    = (Ok resp, Some s')
    /\ Database.find_one_by_email s' "a@x.com" = Some p'
    /\ Player.revenue_usd p' = Some 400%float
    /\ revenue_usd resp = 400%float.
Proof.
  destruct (complete_milestone_revenue (demo_call "m1" None (Some 400%float))
              demo_store demo_player demo_store_ok eq_refl)
    as (resp & s' & p' & Hc & Hf & Hp & Hr & _).
  exists resp, s', p'. rewrite Hp, Hr. repeat split; assumption.
Defined.

(** C4. A call that finds its player reports ["world_1"] exactly when the new
    revenue is at least 1000 and ["world_1"] is not among the player's
    unlocked worlds, and then appends it to them; otherwise it reports
    nothing and leaves them as they are.  So over any calls at most one call
    for the player reports ["world_1"], and a list of unlocked worlds that
    holds ["world_1"] at most once keeps doing so. *)
Theorem complete_milestone_unlocks_world_1 (s : store) (e : string) (p : Player.doc) :
  store_ok s ->
  Database.find_one_by_email s e = Some p ->
  (forall c, player_email c = e ->
     exists resp s' p',
       complete_milestone c (Some s) = (Ok resp, Some s')
       /\ Database.find_one_by_email s' e = Some p'
       /\ (unlocked_world resp = Some "world_1"
           <-> PrimFloat.leb 1000%float (revenue_usd resp) = true
               /\ "world_1" ∉ unlocked_list p)
       /\ (unlocked_world resp = Some "world_1" \/ unlocked_world resp = None)
       /\ (unlocked_world resp = Some "world_1" ->
           Player.unlocked_worlds p' = Some (unlocked_list p ++ ["world_1"]))
       /\ (unlocked_world resp = None ->
           Player.unlocked_worlds p' = Player.unlocked_worlds p))
  /\ (forall calls,
        (length (unlock_reports e (fst (run calls (Some s)))) <= 1)%nat
        /\ ("world_1" ∈ unlocked_list p -> unlock_reports e (fst (run calls (Some s))) = [])
        /\ exists s' p',
             snd (run calls (Some s)) = Some s'
             /\ Database.find_one_by_email s' e = Some p'
             /\ ((count_occ string_dec (unlocked_list p) "world_1" <= 1)%nat ->
                 (count_occ string_dec (unlocked_list p') "world_1" <= 1)%nat)).
Proof.
  intros Hok Hfind. split.
  - intros c <-.
    answer_of_call c p s.
    split; [found_again Hok Hfind|].
    cbn [response_of unlocked_world revenue_usd].
    unfold player_after.
    destruct (unlocks c p) eqn:Hun; unfold unlocks in Hun.
    + apply andb_true_iff in Hun as [Hge Hnot]. apply negb_true_iff in Hnot.
      split; [|split; [|split]].
      * split; [intros _|reflexivity].
        split; [assumption|]. apply bool_decide_eq_false_1 in Hnot. assumption.
      * left. reflexivity.
      * intros _.
        destruct (bool_decide (milestone_id c ∈ completed_set p));
          unfold unlocked_list in *; cbn; rewrite Hnot; reflexivity.
      * discriminate.
    + split; [|split; [|split]].
      * split; [discriminate|]. intros [Hge Hnot].
        rewrite Hge, bool_decide_eq_false_2 in Hun by assumption. discriminate.
      * right. reflexivity.
      * discriminate.
      * intros _. destruct (bool_decide (milestone_id c ∈ completed_set p)); reflexivity.
  - intros calls.
    destruct (run_unlocks e calls s p Hok Hfind) as (s' & p' & Hs' & Hfind' & Hlist & Hlen).
    split; [|split].
    + destruct (bool_decide ("world_1" ∈ unlocked_list p)); lia.
    + intros Hin. rewrite bool_decide_eq_true_2 in Hlen by assumption.
      destruct (unlock_reports e (fst (run calls (Some s)))); [reflexivity|].
      cbn in Hlen. lia.
    + exists s', p'. split; [assumption|]. split; [assumption|].
      rewrite Hlist, count_occ_app. intros Hcount.
      destruct (bool_decide ("world_1" ∈ unlocked_list p)) eqn:Hin.
      * destruct (unlock_reports e (fst (run calls (Some s)))); [cbn; lia|].
        cbn in Hlen. lia.
      * apply bool_decide_eq_false in Hin.
        rewrite (proj1 (count_occ_not_In string_dec _ _)).
        2:{ intros HIn. apply Hin, list_elem_of_In. assumption. }
        destruct (unlock_reports e (fst (run calls (Some s)))) as [|x [|y l]];
          cbn in *; [lia | lia | lia].
Qed.

Lemma complete_milestone_unlocks_world_1_witness :
  (length (unlock_reports "a@x.com"
             (fst (run [demo_call "m1" None (Some 400%float);
                        demo_call "m2" None (Some 400%float);
                        demo_call "m3" None (Some 400%float);
                        demo_call "m3" None (Some 400%float)]
                       (Some demo_store)))) <= 1)%nat.
Proof.
  apply (complete_milestone_unlocks_world_1 demo_store "a@x.com" demo_player
           demo_store_ok eq_refl).
Defined.

Lemma player_after_duplicate (c : CompleteMilestoneRequest) (p : Player.doc) :
  milestone_id c ∈ completed_set p ->
  player_after c p
  = Player.mk (Player._id p) (Player.name p) (Player.email p) (Player.av_coins p)
      (Some (new_revenue_of c p)) (Player.completed_milestones p)
      (if unlocks c p then Some (unlocked_list p ++ ["world_1"])
       else Player.unlocked_worlds p).
Proof.
  intros Hdup. unfold player_after. rewrite bool_decide_eq_true_2 by assumption.
  destruct (unlocks c p) eqn:Hun; [|reflexivity].
  unfold unlocks in Hun. apply andb_true_iff in Hun as [_ Hnot].
  apply negb_true_iff in Hnot.
  unfold Database.addToSet_unlocked_worlds, Database.set_revenue_usd, unlocked_list in *.
  cbn. rewrite Hnot. reflexivity.
Qed.

(** C10. A call whose milestone id is in the player's completed set already
    awards 0 and writes no reward document; of the player's document it
    changes at most the revenue and the unlocked worlds, and it changes no
    other document. *)
Theorem complete_milestone_duplicate_frame (c : CompleteMilestoneRequest) (s : store)
        (p : Player.doc) :
  store_ok s ->
  Database.find_one_by_email s (player_email c) = Some p ->
  milestone_id c ∈ completed_set p ->
  exists resp s' p',
    complete_milestone c (Some s) = (Ok resp, Some s')
    /\ av_coins_awarded resp = 0
    /\ Database.find_one_by_email s' (player_email c) = Some p'
    /\ Player.av_coins p' = Player.av_coins p
    /\ Player.completed_milestones p' = Player.completed_milestones p
    /\ p' = Player.mk (Player._id p) (Player.name p) (Player.email p) (Player.av_coins p)
              (Player.revenue_usd p') (Player.completed_milestones p)
              (Player.unlocked_worlds p')
    /\ reward s' = reward s
    /\ milestone s' = milestone s
    /\ exists l1 l2, player s = l1 ++ p :: l2 /\ player s' = l1 ++ p' :: l2.
Proof.
  intros Hok Hfind Hdup.
  answer_of_call c p s.
  split.
  { unfold response_of. cbn. rewrite bool_decide_eq_true_2 by assumption. reflexivity. }
  split; [found_again Hok Hfind|].
  rewrite (player_after_duplicate c p Hdup). cbn.
  do 3 (split; [reflexivity|]).
  unfold rewards_added. rewrite bool_decide_eq_true_2 by assumption. cbn.
  split; [apply app_nil_r|]. split; [reflexivity|].
  destruct Hok as [Hnd _].
  destruct (update_first_split (player s) _ p (fun _ => player_after c p) Hnd Hfind)
    as (l1 & l2 & Hl & Hu).
  exists l1, l2. split; [assumption|]. unfold store_after. cbn [player].
  rewrite Hu, (player_after_duplicate c p Hdup). reflexivity.
Qed.

Lemma complete_milestone_duplicate_frame_witness :
  exists resp s' p',
    complete_milestone (demo_call "m1" (Some "slow") (Some 1000%float))
      (snd (complete_milestone (demo_call "m1" (Some "fast") None) (Some demo_store)))
    = (Ok resp, Some s')
    /\ av_coins_awarded resp = 0
    /\ Database.find_one_by_email s' "a@x.com" = Some p'
    /\ Player.av_coins p' = Some 150
    /\ Player.completed_milestones p' = Some ["m1"]
    /\ length (reward s') = 1%nat.
Proof.
  pose (s1 := store_after (demo_call "m1" (Some "fast") None) demo_player demo_store).
  pose (p1 := player_after (demo_call "m1" (Some "fast") None) demo_player).
  assert (Hok1 : store_ok s1) by (apply store_after_ok, demo_store_ok).
  assert (Hdup : "m1" ∈ completed_set p1) by (apply (bool_decide_unpack _); vm_compute; exact I).
  destruct (complete_milestone_duplicate_frame
              (demo_call "m1" (Some "slow") (Some 1000%float)) s1 p1 Hok1 eq_refl Hdup)
    as (resp & s' & p' & Hc & Hz & Hf & Hcoins & Hdone & _ & Hrew & _).
  exists resp, s', p'. rewrite Hcoins, Hdone, Hrew.
  repeat split; assumption.
Defined.

(** C5 (the code departs from it). A call with a negative revenue increase
    lowers the stored revenue, here from 0 to -100. *)
Theorem complete_milestone_revenue_can_decrease :
  exists resp s' p',
    complete_milestone (demo_call "m1" None (Some (-100)%float)) (Some demo_store)
    = (Ok resp, Some s')
    /\ Database.find_one_by_email demo_store "a@x.com" = Some demo_player
    /\ Player.revenue_usd demo_player = Some 0%float
    /\ Database.find_one_by_email s' "a@x.com" = Some p'
    /\ Player.revenue_usd p' = Some (-100)%float
    /\ revenue_usd resp = (-100)%float
    /\ PrimFloat.ltb (-100)%float 0%float = true.
Proof.
  do 3 eexists. repeat split.
Qed.

(** *** The loop of [bootstrap] *)

Lemma fold_bootstrap_item (existing : gset (option string)) (cat : list Milestone.fields) :
  forall (s : store) (k : Z),
  let new := List.filter
               (fun item => negb (bool_decide (Milestone.milestone_id item ∈ existing))) cat in
  fold_left (bootstrap_item existing) cat (s, k)
  = (mkstore (player s) (milestone s ++ with_ids (next_oid s) new) (reward s)
             (next_oid s + N.of_nat (length new))%N,
     k + Z.of_nat (length new)).
Proof.
  induction cat as [|item cat IH]; intros s k; cbn zeta.
  - cbn. rewrite app_nil_r, N.add_0_r, Z.add_0_r. destruct s; reflexivity.
  - cbn [fold_left List.filter]. unfold bootstrap_item at 2.
    destruct (bool_decide (Milestone.milestone_id item ∈ existing)); cbn [negb].
    + apply IH.
    + cbn [fst snd]. rewrite IH. unfold Database.create_document_milestone.
      cbn [snd player milestone reward next_oid with_ids length].
      rewrite <- app_assoc. cbn [app]. f_equal; [f_equal|]; lia.
Qed.

Lemma with_ids_body (n : ObjectId) (items : list Milestone.fields) :
  map Milestone.body (with_ids n items) = items.
Proof.
  revert n. induction items as [|x l IH]; intros n; cbn; [reflexivity|].
  rewrite IH. reflexivity.
Qed.

Lemma with_ids_stored_id (n : ObjectId) (items : list Milestone.fields) :
  map stored_id (with_ids n items) = map Milestone.milestone_id items.
Proof.
  revert n. induction items as [|x l IH]; intros n; cbn; [reflexivity|].
  rewrite IH. reflexivity.
Qed.

Lemma NoDup_map_filter {A B : Type} (g : A -> B) (f : A -> bool) (l : list A) :
  NoDup (map g l) -> NoDup (map g (List.filter f l)).
Proof.
  induction l as [|x l IH]; cbn; [intros; assumption|].
  rewrite NoDup_cons. intros [Hx Hnd].
  destruct (f x); cbn; [|auto].
  apply NoDup_cons. split; [|auto].
  intros Hin. apply Hx. apply list_elem_of_In in Hin. apply list_elem_of_In.
  apply in_map_iff in Hin as (y & Hy & Hin). apply in_map_iff.
  exists y. split; [assumption|]. apply filter_In in Hin. tauto.
Qed.

Lemma existing_milestone_ids_spec (s : store) (i : option string) :
  i ∈ existing_milestone_ids s <-> i ∈ map stored_id (milestone s).
Proof.
  unfold existing_milestone_ids. rewrite elem_of_list_to_set. reflexivity.
Qed.

Lemma catalog_ids_NoDup : NoDup (map Milestone.milestone_id catalog).
Proof.
  apply (bool_decide_unpack _). vm_compute. exact I.
Qed.

Lemma bootstrap_once (s : store) :
  bootstrap (Some s)
  = (Ok (Z.of_nat (length (missing_items s))),
     Some (mkstore (player s) (milestone s ++ with_ids (next_oid s) (missing_items s))
                   (reward s) (next_oid s + N.of_nat (length (missing_items s)))%N)).
Proof.
  unfold bootstrap. rewrite fold_bootstrap_item. reflexivity.
Qed.

(** After one bootstrap every catalog identifier is stored. *)
Lemma missing_items_after (s : store) :
  missing_items
    (mkstore (player s) (milestone s ++ with_ids (next_oid s) (missing_items s))
             (reward s) (next_oid s + N.of_nat (length (missing_items s)))%N)
  = [].
Proof.
  set (s' := mkstore _ _ _ _).
  assert (Hall : forall item, In item catalog ->
                   Milestone.milestone_id item ∈ existing_milestone_ids s').
  { intros item Hin. apply existing_milestone_ids_spec. subst s'. cbn [milestone].
    rewrite map_app, with_ids_stored_id. apply elem_of_app.
    destruct (bool_decide (Milestone.milestone_id item ∈ existing_milestone_ids s)) eqn:Hd.
    - left. apply existing_milestone_ids_spec. apply bool_decide_eq_true_1 in Hd. assumption.
    - right. apply list_elem_of_In, in_map. unfold missing_items.
      apply filter_In. rewrite Hd. split; [assumption | reflexivity]. }
  unfold missing_items. generalize dependent catalog. intros cat Hall.
  induction cat as [|x cat IH]; cbn; [reflexivity|].
  rewrite bool_decide_eq_true_2 by (apply Hall; left; reflexivity). cbn.
  apply IH. intros item Hin. apply Hall. right. assumption.
Qed.

(** C6. [bootstrap] inserts the catalog entries whose identifier is not
    stored, and only those, after the stored milestones and under fresh
    [_id]s; it returns their number; it leaves every stored document as it
    is; called again it inserts nothing, so any number of calls leaves what
    one call leaves; and it stores no identifier twice.  The catalog has the
    11 entries [m1] to [m11], with the orders 1 to 11. *)
Theorem bootstrap_idempotent (s : store) :
  exists s',
    bootstrap (Some s) = (Ok (Z.of_nat (length (missing_items s))), Some s')
    /\ milestone s' = milestone s ++ with_ids (next_oid s) (missing_items s)
    /\ map Milestone.body (with_ids (next_oid s) (missing_items s)) = missing_items s
    /\ (forall item,
          In item (missing_items s)
          <-> In item catalog /\ Milestone.milestone_id item ∉ map stored_id (milestone s))
    /\ player s' = player s
    /\ reward s' = reward s
    /\ bootstrap (Some s') = (Ok 0, Some s')
    /\ (forall n, bootstrap_n (S n) (Some s) = Some s')
    /\ (NoDup (map stored_id (milestone s)) -> NoDup (map stored_id (milestone s')))
    /\ map Milestone.milestone_id catalog
       = map Some ["m1"; "m2"; "m3"; "m4"; "m5"; "m6"; "m7"; "m8"; "m9"; "m10"; "m11"]
    /\ map Milestone.order catalog = map Some [1; 2; 3; 4; 5; 6; 7; 8; 9; 10; 11].
Proof.
  set (s' := mkstore (player s) (milestone s ++ with_ids (next_oid s) (missing_items s))
                     (reward s) (next_oid s + N.of_nat (length (missing_items s)))%N).
  assert (Hagain : bootstrap (Some s') = (Ok 0, Some s')).
  { rewrite bootstrap_once. subst s'. rewrite missing_items_after.
    cbn [length with_ids player milestone reward next_oid Z.of_nat N.of_nat].
    rewrite app_nil_r, N.add_0_r. reflexivity. }
  exists s'. split; [apply bootstrap_once|]. split; [reflexivity|].
  split; [apply with_ids_body|]. split.
  { intros item. unfold missing_items. rewrite filter_In, negb_true_iff.
    rewrite <- existing_milestone_ids_spec.
    split; intros [Hin Hd]; (split; [assumption|]).
    - apply bool_decide_eq_false_1 in Hd. assumption.
    - apply bool_decide_eq_false_2. assumption. }
  split; [reflexivity|]. split; [reflexivity|]. split; [exact Hagain|]. split.
  { intros n. cbn [bootstrap_n]. rewrite bootstrap_once. cbn [snd]. fold s'.
    induction n as [|n IH]; [reflexivity|].
    cbn [bootstrap_n]. rewrite Hagain. exact IH. }
  split; [|split; reflexivity].
  intros Hnd. subst s'. cbn [milestone]. rewrite map_app, with_ids_stored_id.
  apply NoDup_app. split; [assumption|]. split.
  - intros i Hi Hnew. apply list_elem_of_In, in_map_iff in Hnew as (item & <- & Hin).
    unfold missing_items in Hin. apply filter_In in Hin as [_ Hd].
    apply negb_true_iff, bool_decide_eq_false_1 in Hd.
    apply Hd, existing_milestone_ids_spec. assumption.
  - apply NoDup_map_filter, catalog_ids_NoDup.
Qed.

Lemma bootstrap_idempotent_witness :
  exists s',
    bootstrap (Some empty_store) = (Ok 11, Some s')
    /\ bootstrap (Some s') = (Ok 0, Some s')
    /\ bootstrap_n 3 (Some empty_store) = Some s'
    /\ NoDup (map stored_id (milestone s')).
Proof.
  destruct (bootstrap_idempotent empty_store)
    as (s' & H1 & _ & _ & _ & _ & _ & H2 & H3 & H4 & _).
  exists s'. split; [exact H1|]. split; [exact H2|]. split; [apply H3|].
  apply H4. cbn. apply NoDup_nil_2.
Defined.

(** *** Registration *)

Lemma find_app_last {A : Type} (f : A -> bool) (l : list A) (x : A) :
  List.find f (l ++ [x])
  = match List.find f l with
    | Some y => Some y
    | None => if f x then Some x else None
    end.
Proof.
  induction l as [|y l IH]; cbn; [reflexivity|].
  destruct (f y); [reflexivity | exact IH].
Qed.




(** *** Failures *)

(** C8, as stated, fails: with the store not configured, [complete_milestone]
    and [player_summary] fail with status 500, which is not the 404 of a
    missing player. *)
Lemma complete_milestone_other_error_path :
  complete_milestone (demo_call "m1" None None) None
  = (Raise (mkHTTPException 500 "Database not configured"), None)
  /\ player_summary "a@x.com" None = Raise (mkHTTPException 500 "Database not configured")
  /\ Player_not_found = mkHTTPException 404 "Player not found".
Proof.
  repeat split.
Qed.

(** C8, amended. On a configured store, [complete_milestone] and
    [player_summary] fail with the 404 of a missing player exactly when no
    player is stored under the email, and succeed otherwise; the answer of
    [complete_milestone] does not depend on the stored milestones, so an
    identifier outside the catalog is treated like any other.  The one other
    failure of either handler is the 500 of a store that is not configured.
    A failed call leaves the store as it was. *)
Theorem complete_milestone_failures (c : CompleteMilestoneRequest) (email : string) :
  (forall s,
     (fst (complete_milestone c (Some s)) = Raise Player_not_found
      <-> Database.find_one_by_email s (player_email c) = None)
     /\ (player_summary email (Some s) = Raise Player_not_found
         <-> Database.find_one_by_email s email = None)
     /\ (is_Some (Database.find_one_by_email s (player_email c))
         <-> exists resp, fst (complete_milestone c (Some s)) = Ok resp)
     /\ (is_Some (Database.find_one_by_email s email)
         <-> exists summary, player_summary email (Some s) = Ok summary)
     /\ (forall ms,
           fst (complete_milestone c (Some (mkstore (player s) ms (reward s) (next_oid s))))
           = fst (complete_milestone c (Some s))))
  /\ complete_milestone c None = (Raise Database_not_configured, None)
  /\ player_summary email None = Raise Database_not_configured
  /\ (forall db e, fst (complete_milestone c db) = Raise e ->
        (e = Player_not_found \/ e = Database_not_configured)
        /\ snd (complete_milestone c db) = db)
  /\ (forall db e, player_summary email db = Raise e ->
        e = Player_not_found \/ e = Database_not_configured).
Proof.
  split; [|split; [reflexivity|split; [reflexivity|split]]].
  - intros s. split; [|split; [|split; [|split]]].
    + destruct (Database.find_one_by_email s (player_email c)) as [p|] eqn:Hfind.
      * rewrite (complete_milestone_response c s p Hfind). split; discriminate.
      * unfold complete_milestone. rewrite Hfind. split; reflexivity.
    + unfold player_summary.
      destruct (Database.find_one_by_email s email); split; try discriminate; reflexivity.
    + destruct (Database.find_one_by_email s (player_email c)) as [p|] eqn:Hfind.
      * rewrite (complete_milestone_response c s p Hfind). split; eauto.
      * unfold complete_milestone. rewrite Hfind. cbn.
        split; [intros [p Hp]; discriminate | intros [resp Hr]; discriminate].
    + unfold player_summary.
      destruct (Database.find_one_by_email s email) as [p|]; split; eauto.
      * intros [p Hp]; discriminate.
      * intros [x Hx]; discriminate.
    + intros ms.
      destruct (Database.find_one_by_email s (player_email c)) as [p|] eqn:Hfind.
      * rewrite (complete_milestone_response c s p Hfind).
        apply complete_milestone_response. exact Hfind.
      * unfold complete_milestone, Database.find_one_by_email in *. cbn [player].
        rewrite Hfind. reflexivity.
  - intros [s|] e; [|cbn; intros [= <-]; split; [right|]; reflexivity].
    destruct (Database.find_one_by_email s (player_email c)) as [p|] eqn:Hfind.
    + rewrite (complete_milestone_response c s p Hfind). discriminate.
    + unfold complete_milestone. rewrite Hfind. cbn. intros [= <-].
      split; [left|]; reflexivity.
  - intros [s|] e; cbn; [|intros [= <-]; right; reflexivity].
    destruct (Database.find_one_by_email s email) as [p|]; [discriminate|].
    intros [= <-]. left. reflexivity.
Qed.

(** *** The sort of [list_milestones] *)

Section SortByKey.

Context {A : Type} (key : A -> Z).

Lemma insert_by_key_perm (x : A) (l : list A) :
  Permutation (insert_by_key key x l) (x :: l).
Proof.
  induction l as [|y l IH]; cbn; [reflexivity|].
  destruct (key x <=? key y); [reflexivity|].
  rewrite IH. apply perm_swap.
Qed.

Lemma sort_by_key_perm (l : list A) : Permutation (sort_by_key key l) l.
Proof.
  induction l as [|x l IH]; cbn; [reflexivity|].
  rewrite insert_by_key_perm, IH. reflexivity.
Qed.

Lemma insert_by_key_sorted (x : A) (l : list A) :
  StronglySorted (fun a b => key a <= key b) l ->
  StronglySorted (fun a b => key a <= key b) (insert_by_key key x l).
Proof.
  induction l as [|y l IH]; cbn; intros Hs.
  - constructor; constructor.
  - apply StronglySorted_inv in Hs as [Hs Hy].
    destruct (key x <=? key y) eqn:E.
    + apply Z.leb_le in E. constructor.
      * constructor; assumption.
      * constructor; [assumption|].
        eapply Forall_impl; [exact Hy|]. cbn. intros z Hz. lia.
    + apply Z.leb_gt in E. constructor; [apply IH; assumption|].
      rewrite insert_by_key_perm. constructor; [lia | assumption].
Qed.

Lemma sort_by_key_sorted (l : list A) :
  StronglySorted (fun a b => key a <= key b) (sort_by_key key l).
Proof.
  induction l as [|x l IH]; cbn; [constructor|].
  apply insert_by_key_sorted. assumption.
Qed.

(** Stability: the elements of any one key come out in the order they came
    in. *)
Lemma insert_by_key_stable (k : Z) (x : A) (l : list A) :
  List.filter (fun a => key a =? k) (insert_by_key key x l)
  = List.filter (fun a => key a =? k) (x :: l).
Proof.
  induction l as [|y l IH]; [reflexivity|].
  cbn [insert_by_key]. destruct (key x <=? key y) eqn:E; [reflexivity|].
  apply Z.leb_gt in E. cbn [List.filter] in *. rewrite IH.
  destruct (key x =? k) eqn:Ex; [|reflexivity].
  apply Z.eqb_eq in Ex.
  assert (Ey : (key y =? k) = false) by (apply Z.eqb_neq; lia).
  rewrite Ey. reflexivity.
Qed.

Lemma sort_by_key_stable (k : Z) (l : list A) :
  List.filter (fun a => key a =? k) (sort_by_key key l)
  = List.filter (fun a => key a =? k) l.
Proof.
  induction l as [|x l IH]; [reflexivity|].
  cbn [sort_by_key]. rewrite insert_by_key_stable. cbn [List.filter].
  rewrite IH. reflexivity.
Qed.

Lemma sorted_around (l1 l2 : list A) (d : A) :
  StronglySorted (fun a b => key a <= key b) (l1 ++ d :: l2) ->
  Forall (fun x => key x <= key d) l1 /\ Forall (fun x => key d <= key x) l2.
Proof.
  induction l1 as [|y l1 IH]; cbn; intros Hs.
  - apply StronglySorted_inv in Hs as [_ Hd]. split; [constructor | assumption].
  - apply StronglySorted_inv in Hs as [Hs Hy].
    destruct (IH Hs) as [H1 H2]. split; [|assumption].
    constructor; [|assumption].
    rewrite Forall_forall in Hy. apply Hy.
    apply elem_of_app. right. left.
Qed.

End SortByKey.

(** C9, as stated, fails: a milestone without [order] is listed before a
    milestone whose [order] is 1000, so it is not last. *)
Lemma list_milestones_orderless_not_last :
  list_milestones
    (Some (mkstore []
             [Milestone.mkdoc 0%N (Milestone.mk (Some "x") "no order" None None);
              Milestone.mkdoc 1%N (Milestone.mk (Some "y") "late" None (Some 1000))]
             [] 2%N))
  = Ok [Milestone.mk (Some "x") "no order" None None;
        Milestone.mk (Some "y") "late" None (Some 1000)].
Proof.
  reflexivity.
Qed.

(** C9, amended. [list_milestones] answers the stored milestones, each
    without its [_id], sorted in ascending order of [order], a milestone
    without [order] counting as 999; milestones of equal key keep their
    stored order.  So a milestone without [order] comes after every
    milestone whose [order] is below 999 and before every one whose [order]
    is above 999. *)
Theorem list_milestones_sorted (s : store) :
  exists docs,
    list_milestones (Some s) = Ok (map Milestone.body docs)
    /\ Permutation docs (milestone s)
    /\ StronglySorted (fun a b => order_key a <= order_key b) docs
    /\ (forall k,
          List.filter (fun d => order_key d =? k) docs
          = List.filter (fun d => order_key d =? k) (milestone s))
    /\ (forall d, Milestone.order (Milestone.body d) = None -> order_key d = 999)
    /\ (forall d n, Milestone.order (Milestone.body d) = Some n -> order_key d = n)
    /\ (forall l1 d l2,
          docs = l1 ++ d :: l2 ->
          Milestone.order (Milestone.body d) = None ->
          Forall (fun x => forall n, Milestone.order (Milestone.body x) = Some n -> n <= 999) l1
          /\ Forall (fun x => forall n, Milestone.order (Milestone.body x) = Some n -> 999 <= n)
                    l2).
Proof.
  exists (sort_by_key order_key (milestone s)).
  split; [reflexivity|]. split; [apply sort_by_key_perm|].
  split; [apply sort_by_key_sorted|]. split; [intros k; apply sort_by_key_stable|].
  assert (Hnone : forall d, Milestone.order (Milestone.body d) = None -> order_key d = 999).
  { intros d Hd. unfold order_key. rewrite Hd. reflexivity. }
  assert (Hsome : forall d n, Milestone.order (Milestone.body d) = Some n -> order_key d = n).
  { intros d n Hd. unfold order_key. rewrite Hd. reflexivity. }
  split; [exact Hnone|]. split; [exact Hsome|].
  intros l1 d l2 Hl Hd.
  pose proof (sort_by_key_sorted order_key (milestone s)) as Hs. rewrite Hl in Hs.
  apply sorted_around in Hs as [H1 H2]. rewrite (Hnone d Hd) in H1, H2.
  split; (eapply Forall_impl; [eassumption|]); cbn; intros x Hx n Hn;
    rewrite (Hsome x n Hn) in Hx; assumption.
Qed.

(** ** More on single calls *)

Lemma award_cases (sp : option string) : award sp = 150 \/ award sp = 130 \/ award sp = 115.
Proof.
  unfold award. rewrite speed_rewards_lookup.
  destruct (String.eqb _ "fast"); [left; reflexivity|].
  destruct (String.eqb _ "normal"); [right; left; reflexivity|].
  destruct (String.eqb _ "slow"); [right; right; reflexivity | right; left; reflexivity].
Qed.

Lemma balance_after (c : CompleteMilestoneRequest) (p : Player.doc) :
  balance (player_after c p) = balance p + av_coins_awarded (response_of c p).
Proof.
  unfold balance, player_after, response_of. cbn [av_coins_awarded].
  destruct (bool_decide (milestone_id c ∈ completed_set p)), (unlocks c p); cbn; lia.
Qed.

Lemma revenue_after (c : CompleteMilestoneRequest) (p : Player.doc) :
  Player.revenue_usd (player_after c p)
  = Some (PrimFloat.add (revenue p) (float_or_0 (revenue_increase c))).
Proof.
  unfold player_after. destruct (bool_decide _), (unlocks c p); reflexivity.
Qed.

Lemma player_after_name (c : CompleteMilestoneRequest) (p : Player.doc) :
  Player.name (player_after c p) = Player.name p.
Proof.
  unfold player_after. destruct (bool_decide _), (unlocks c p); reflexivity.
Qed.

(** X1. A call that finds its player awards 0, 115, 130 or 150 coins, and 0
    exactly when the milestone id was completed before. *)
Theorem complete_milestone_coins_range (c : CompleteMilestoneRequest) (s : store)
        (p : Player.doc) :
  Database.find_one_by_email s (player_email c) = Some p ->
  exists resp,
    fst (complete_milestone c (Some s)) = Ok resp
    /\ (av_coins_awarded resp = 0 \/ av_coins_awarded resp = 115
        \/ av_coins_awarded resp = 130 \/ av_coins_awarded resp = 150)
    /\ (av_coins_awarded resp = 0 <-> milestone_id c ∈ completed_set p).
Proof.
  intros Hfind. exists (response_of c p).
  split; [apply complete_milestone_response; assumption|].
  unfold response_of. cbn [av_coins_awarded].
  destruct (bool_decide (milestone_id c ∈ completed_set p)) eqn:Hdup.
  - apply bool_decide_eq_true_1 in Hdup. split; [left; reflexivity|]. tauto.
  - apply bool_decide_eq_false_1 in Hdup.
    destruct (award_cases (speed c)) as [H|[H|H]]; rewrite H;
      (split; [tauto | split; [discriminate | contradiction]]).
Qed.

Lemma complete_milestone_coins_range_witness :
  exists resp,
    fst (complete_milestone (demo_call "m1" (Some "SLOW") None) (Some demo_store)) = Ok resp
    /\ av_coins_awarded resp <> 0.
Proof.
  destruct (complete_milestone_coins_range (demo_call "m1" (Some "SLOW") None)
              demo_store demo_player eq_refl) as (resp & Hr & _ & Hz).
  exists resp. split; [exact Hr|]. intros H0. apply Hz in H0.
  revert H0. apply (bool_decide_unpack _). vm_compute. exact I.
Defined.

(** X2. A call for one player leaves the document found under any other
    email as it is, so the summary of every other player is unchanged; it
    leaves the milestones as they are, keeps the stored reward documents
    and adds at most one, and changes no player's [_id], name or email. *)
Theorem complete_milestone_frame (c : CompleteMilestoneRequest) (s : store) :
  store_ok s ->
  exists s',
    snd (complete_milestone c (Some s)) = Some s'
    /\ (forall e, e <> player_email c ->
          Database.find_one_by_email s' e = Database.find_one_by_email s e
          /\ player_summary e (Some s') = player_summary e (Some s))
    /\ milestone s' = milestone s
    /\ (exists added, reward s' = reward s ++ added /\ (length added <= 1)%nat)
    /\ map Player._id (player s') = map Player._id (player s)
    /\ map Player.name (player s') = map Player.name (player s)
    /\ map Player.email (player s') = map Player.email (player s).
Proof.
  intros Hok.
  destruct (Database.find_one_by_email s (player_email c)) as [p|] eqn:Hfind.
  - exists (store_after c p s). rewrite (complete_milestone_found c s p Hok Hfind).
    split; [reflexivity|].
    assert (Hother : forall e, e <> player_email c ->
              Database.find_one_by_email (store_after c p s) e
              = Database.find_one_by_email s e).
    { intros e He. rewrite (find_store_after c p s e Hok Hfind).
      destruct (String.eqb (player_email c) e) eqn:Ee; [|reflexivity].
      apply String.eqb_eq in Ee. congruence. }
    split.
    { intros e He. split; [apply Hother; assumption|].
      unfold player_summary. rewrite (Hother e He). reflexivity. }
    split; [reflexivity|]. split.
    { eexists. split; [reflexivity|]. unfold rewards_added.
      destruct (bool_decide _); cbn; lia. }
    unfold store_after. cbn [player].
    destruct Hok as [Hnd _].
    destruct (update_first_split (player s) _ p (fun _ => player_after c p) Hnd Hfind)
      as (l1 & l2 & Hl & Hu).
    rewrite Hu, Hl, !map_app. cbn [map].
    rewrite player_after_id, player_after_name, player_after_email. auto.
  - exists s. unfold complete_milestone. rewrite Hfind. cbn.
    split; [reflexivity|]. split; [auto|]. split; [reflexivity|].
    split; [exists []; rewrite app_nil_r; split; [reflexivity | cbn; lia]|].
    auto.
Qed.

Lemma complete_milestone_frame_witness :
  exists s',
    snd (complete_milestone (demo_call "m1" None (Some 400%float)) (Some demo_store))
    = Some s'
    /\ player_summary "b@x.com" (Some s') = Raise Player_not_found
    /\ map Player.email (player s') = ["a@x.com"].
Proof.
  destruct (complete_milestone_frame (demo_call "m1" None (Some 400%float))
              demo_store demo_store_ok)
    as (s' & Hs & Hother & _ & _ & _ & _ & Hemail).
  exists s'. split; [exact Hs|]. split.
  - destruct (Hother "b@x.com") as [_ Hsum]; [discriminate|]. rewrite Hsum. reflexivity.
  - rewrite Hemail. reflexivity.
Defined.


(** ** More on sequences of calls *)

(** A run, seen from the player registered under [e]: the calls for other
    players do not count, and the calls for [e] act on the player's document
    one after the other. *)
Lemma run_player (e : string) (calls : list CompleteMilestoneRequest) :
  forall (s : store) (p : Player.doc),
  store_ok s ->
  Database.find_one_by_email s e = Some p ->
  exists s',
    snd (run calls (Some s)) = Some s'
    /\ store_ok s'
    /\ Database.find_one_by_email s' e = Some (replay (calls_for e calls) p)
    /\ balance (replay (calls_for e calls) p)
       = balance p + coins_total e (fst (run calls (Some s))).
Proof.
  induction calls as [|c cs IH]; intros s p Hok Hfind.
  - exists s. split; [reflexivity|]. split; [assumption|]. split; [assumption|].
    unfold coins_total. cbn. lia.
  - destruct (complete_milestone_step c s e p Hok Hfind) as (s1 & Hsnd & Hok1 & Hfind1 & Hres).
    destruct (IH s1 _ Hok1 Hfind1) as (s' & Hs' & Hok' & Hfind' & Hbal).
    exists s'. cbn [run].
    destruct (complete_milestone c (Some s)) as [r db1] eqn:Hc. cbn in Hsnd. subst db1.
    destruct (run cs (Some s1)) as [rs db2] eqn:Hr. cbn [fst snd] in *.
    split; [assumption|]. split; [assumption|].
    unfold calls_for, coins_total in *. cbn [List.filter fst snd].
    destruct (String.eqb (player_email c) e) eqn:Ee.
    + apply String.eqb_eq in Ee. specialize (Hres Ee). injection Hres as Hr0. subst r.
      cbn [replay fold_left map foldr coins_of]. fold (replay (List.filter
        (fun c0 => String.eqb (player_email c0) e) cs) (player_after c p)).
      split; [assumption|]. rewrite Hbal, balance_after. cbn [snd coins_of]. lia.
    + split; assumption.
Qed.

Lemma revenue_replay (cs : list CompleteMilestoneRequest) :
  forall p,
  revenue (replay cs p)
  = fold_left (fun r c => PrimFloat.add r (float_or_0 (revenue_increase c))) cs (revenue p).
Proof.
  induction cs as [|c cs IH]; intros p; [reflexivity|].
  cbn [replay fold_left]. fold (replay cs (player_after c p)).
  rewrite IH. unfold revenue at 1. rewrite revenue_after. reflexivity.
Qed.

Lemma completed_set_replay (cs : list CompleteMilestoneRequest) :
  forall p,
  completed_set (replay cs p) = completed_set p ∪ list_to_set (map milestone_id cs).
Proof.
  induction cs as [|c cs IH]; intros p.
  - cbn. apply set_eq. intros x. rewrite elem_of_union, elem_of_empty. tauto.
  - cbn [replay fold_left map list_to_set]. fold (replay cs (player_after c p)).
    rewrite IH, completed_set_after. apply set_eq. intros x.
    rewrite !elem_of_union. tauto.
Qed.

Lemma balance_replay_le (cs : list CompleteMilestoneRequest) :
  forall p, balance p <= balance (replay cs p).
Proof.
  induction cs as [|c cs IH]; intros p; [cbn; lia|].
  cbn [replay fold_left]. fold (replay cs (player_after c p)).
  etransitivity; [|apply IH].
  rewrite balance_after. unfold response_of. cbn [av_coins_awarded].
  destruct (bool_decide _); [lia|].
  destruct (award_cases (speed c)) as [H|[H|H]]; rewrite H; lia.
Qed.

(** X3. Over any calls, the coin balance of a player grows by exactly the
    coins that the calls for that player award, and so never goes down. *)
Theorem run_balance (s : store) (e : string) (p : Player.doc)
        (calls : list CompleteMilestoneRequest) :
  store_ok s ->
  Database.find_one_by_email s e = Some p ->
  exists s' p',
    snd (run calls (Some s)) = Some s'
    /\ Database.find_one_by_email s' e = Some p'
    /\ balance p' = balance p + coins_total e (fst (run calls (Some s)))
    /\ balance p <= balance p'.
Proof.
  intros Hok Hfind.
  destruct (run_player e calls s p Hok Hfind) as (s' & Hs' & _ & Hfind' & Hbal).
  exists s', (replay (calls_for e calls) p).
  split; [assumption|]. split; [assumption|]. split; [assumption|].
  apply balance_replay_le.
Qed.

Lemma run_balance_witness :
  exists s' p',
    snd (run [demo_call "m1" (Some "fast") None;
              demo_call "m1" (Some "fast") None;
              demo_call "m2" None None] (Some demo_store)) = Some s'
    /\ Database.find_one_by_email s' "a@x.com" = Some p'
    /\ balance p' = 280.
Proof.
  destruct (run_balance demo_store "a@x.com" demo_player
              [demo_call "m1" (Some "fast") None;
               demo_call "m1" (Some "fast") None;
               demo_call "m2" None None] demo_store_ok eq_refl)
    as (s' & p' & Hs & Hf & Hb & _).
  exists s', p'. split; [exact Hs|]. split; [exact Hf|]. rewrite Hb. reflexivity.
Defined.

(** X4. Over any calls, the stored revenue of a player is the revenue it
    had with the increases of the calls for that player added one by one, in
    the order of the calls. *)
Theorem run_revenue (s : store) (e : string) (p : Player.doc)
        (calls : list CompleteMilestoneRequest) :
  store_ok s ->
  Database.find_one_by_email s e = Some p ->
  exists s' p',
    snd (run calls (Some s)) = Some s'
    /\ Database.find_one_by_email s' e = Some p'
    /\ revenue p'
       = fold_left (fun r c => PrimFloat.add r (float_or_0 (revenue_increase c)))
                   (calls_for e calls) (revenue p).
Proof.
  intros Hok Hfind.
  destruct (run_player e calls s p Hok Hfind) as (s' & Hs' & _ & Hfind' & _).
  exists s', (replay (calls_for e calls) p).
  split; [assumption|]. split; [assumption|]. apply revenue_replay.
Qed.

Lemma run_revenue_witness :
  exists s' p',
    snd (run [demo_call "m1" None (Some 400%float);
              mkCompleteMilestoneRequest "b@x.com" "m1" None (Some 50%float);
              demo_call "m1" None (Some 250.5%float)] (Some demo_store)) = Some s'
    /\ Database.find_one_by_email s' "a@x.com" = Some p'
    /\ revenue p' = 650.5%float.
Proof.
  destruct (run_revenue demo_store "a@x.com" demo_player
              [demo_call "m1" None (Some 400%float);
               mkCompleteMilestoneRequest "b@x.com" "m1" None (Some 50%float);
               demo_call "m1" None (Some 250.5%float)] demo_store_ok eq_refl)
    as (s' & p' & Hs & Hf & Hr).
  exists s', p'. split; [exact Hs|]. split; [exact Hf|]. rewrite Hr. reflexivity.
Defined.

(** X5. Over any calls, the completed set of a player is the set it was
    with the milestone ids of the calls for that player added: an id is
    never removed, and the ids of other players' calls are not added. *)
Theorem run_completed (s : store) (e : string) (p : Player.doc)
        (calls : list CompleteMilestoneRequest) :
  store_ok s ->
  Database.find_one_by_email s e = Some p ->
  exists s' p',
    snd (run calls (Some s)) = Some s'
    /\ Database.find_one_by_email s' e = Some p'
    /\ completed_set p'
       = completed_set p ∪ list_to_set (map milestone_id (calls_for e calls))
    /\ completed_set p ⊆ completed_set p'.
Proof.
  intros Hok Hfind.
  destruct (run_player e calls s p Hok Hfind) as (s' & Hs' & _ & Hfind' & _).
  exists s', (replay (calls_for e calls) p).
  split; [assumption|]. split; [assumption|].
  rewrite completed_set_replay. split; [reflexivity|].
  intros x Hx. apply elem_of_union. left. assumption.
Qed.

Lemma run_completed_witness :
  exists s' p',
    snd (run [demo_call "m2" None None;
              mkCompleteMilestoneRequest "b@x.com" "m9" None None;
              demo_call "m1" None None] (Some demo_store)) = Some s'
    /\ Database.find_one_by_email s' "a@x.com" = Some p'
    /\ completed_set p' = {[ "m1"; "m2" ]}.
Proof.
  destruct (run_completed demo_store "a@x.com" demo_player
              [demo_call "m2" None None;
               mkCompleteMilestoneRequest "b@x.com" "m9" None None;
               demo_call "m1" None None] demo_store_ok eq_refl)
    as (s' & p' & Hs & Hf & Hc & _).
  exists s', p'. split; [exact Hs|]. split; [exact Hf|]. rewrite Hc.
  apply (bool_decide_unpack _). vm_compute. exact I.
Defined.

(** ** Summaries *)

(** X6. After a call that finds its player, the summary of that player
    shows the revenue of the answer, the former balance plus the coins of the
    answer, the milestone id among the completed ones and, when the answer
    reports ["world_1"], that world among the unlocked ones; name and email
    are as before. *)
Theorem summary_after_complete (c : CompleteMilestoneRequest) (s : store) (p : Player.doc) :
  store_ok s ->
  Database.find_one_by_email s (player_email c) = Some p ->
  exists resp s' sum,
    complete_milestone c (Some s) = (Ok resp, Some s')
    /\ player_summary (player_email c) (Some s') = Ok sum
    /\ ps_revenue_usd sum = revenue_usd resp
    /\ ps_av_coins sum = balance p + av_coins_awarded resp
    /\ milestone_id c ∈ ps_completed_milestones sum
    /\ (unlocked_world resp = Some "world_1" -> "world_1" ∈ ps_unlocked_worlds sum)
    /\ ps_name sum = Player.name p
    /\ ps_email sum = Player.email p.
Proof.
  intros Hok Hfind.
  pose proof (find_store_after c p s (player_email c) Hok Hfind) as Hf.
  rewrite String.eqb_refl in Hf.
  exists (response_of c p), (store_after c p s). eexists.
  split; [apply complete_milestone_found; assumption|].
  split; [unfold player_summary; rewrite Hf; reflexivity|].
  cbn [ps_revenue_usd ps_av_coins ps_completed_milestones ps_unlocked_worlds
       ps_name ps_email].
  split; [rewrite revenue_after; reflexivity|].
  split; [apply balance_after|]. split.
  { apply (proj1 (elem_of_list_to_set (C:=gset string) (milestone_id c) _)).
    change (milestone_id c ∈ completed_set (player_after c p)).
    rewrite completed_set_after. apply elem_of_union_r, elem_of_singleton. reflexivity. }
  split.
  { fold (unlocked_list (player_after c p)). rewrite unlocked_list_after.
    cbn [response_of unlocked_world]. destruct (unlocks c p); [|discriminate].
    intros _. apply elem_of_app. right. apply list_elem_of_singleton. reflexivity. }
  split; [apply player_after_name | apply player_after_email].
Qed.

Lemma summary_after_complete_witness :
  exists resp s' sum,
    complete_milestone (demo_call "m1" (Some "fast") (Some 1500%float)) (Some demo_store)
    = (Ok resp, Some s')
    /\ player_summary "a@x.com" (Some s') = Ok sum
    /\ ps_revenue_usd sum = 1500%float
    /\ ps_av_coins sum = 150.
Proof.
  destruct (summary_after_complete (demo_call "m1" (Some "fast") (Some 1500%float))
              demo_store demo_player demo_store_ok eq_refl)
    as (resp & s' & sum & Hc & Hs & Hr & Hb & _).
  exists resp, s', sum. split; [exact Hc|]. split; [exact Hs|].
  rewrite Hr, Hb. injection Hc as <- _. split; reflexivity.
Defined.

(** X7. After [create_player] for an email that was not stored and that the
    schema accepts, the summary under the address that the validation returns
    shows the given name with 0 coins, 0 revenue and nothing completed or
    unlocked, unless an older player is stored under that address, whose
    summary stays; and when that address differs from the submitted one, the
    summary under the submitted one is still the failure of a missing
    player.  For an email that was stored, the summary is as it was, the
    given name being ignored; for an email that the schema rejects, it is the
    failure of a missing player. *)
Theorem summary_after_create (EmailStr : string -> option string) (payload : CreatePlayer)
        (s : store) :
  (forall email,
     Database.find_one_by_email s (cp_email payload) = None ->
     EmailStr (cp_email payload) = Some email ->
     (Database.find_one_by_email s email = None ->
      player_summary email (snd (create_player EmailStr payload (Some s)))
      = Ok (mkPlayerSummary (cp_name payload) email 0 0%float [] []))
     /\ (is_Some (Database.find_one_by_email s email) ->
         player_summary email (snd (create_player EmailStr payload (Some s)))
         = player_summary email (Some s))
     /\ (email <> cp_email payload ->
         player_summary (cp_email payload) (snd (create_player EmailStr payload (Some s)))
         = Raise Player_not_found))
  /\ (forall p, Database.find_one_by_email s (cp_email payload) = Some p ->
      player_summary (cp_email payload) (snd (create_player EmailStr payload (Some s)))
      = player_summary (cp_email payload) (Some s)
      /\ exists sum, player_summary (cp_email payload) (Some s) = Ok sum
                     /\ ps_name sum = Player.name p)
  /\ (Database.find_one_by_email s (cp_email payload) = None ->
      EmailStr (cp_email payload) = None ->
      player_summary (cp_email payload) (snd (create_player EmailStr payload (Some s)))
      = Raise Player_not_found).
Proof.
  split; [|split].
  - intros email Hnone Hvalid. unfold create_player. rewrite Hnone, Hvalid.
    unfold Database.create_document_player. cbn [snd].
    unfold player_summary, Database.find_one_by_email in *. cbn [player].
    rewrite !find_app_last. cbn [new_player Player.email].
    split; [|split].
    + intros Hfree. rewrite Hfree, String.eqb_refl. reflexivity.
    + intros [q Hq]. rewrite Hq. reflexivity.
    + intros Hne. rewrite Hnone.
      destruct (String.eqb email (cp_email payload)) eqn:E; [|reflexivity].
      apply String.eqb_eq in E. contradiction.
  - intros p Hfind. unfold create_player. rewrite Hfind. cbn [snd].
    split; [reflexivity|]. unfold player_summary. rewrite Hfind.
    eexists. split; reflexivity.
  - intros Hnone Hbad. unfold create_player. rewrite Hnone, Hbad. cbn [snd].
    unfold player_summary. rewrite Hnone. reflexivity.
Qed.

Lemma summary_after_create_witness :
  player_summary "b@x.com"
    (snd (create_player demo_EmailStr (mkCreatePlayer "B" "b@X.COM") (Some demo_store)))
  = Ok (mkPlayerSummary "B" "b@x.com" 0 0%float [] [])
  /\ player_summary "b@X.COM"
       (snd (create_player demo_EmailStr (mkCreatePlayer "B" "b@X.COM") (Some demo_store)))
     = Raise Player_not_found
  /\ exists sum,
       player_summary "a@x.com"
         (snd (create_player demo_EmailStr (mkCreatePlayer "Z" "a@x.com") (Some demo_store)))
       = Ok sum
       /\ ps_name sum = "A".
Proof.
  destruct (summary_after_create demo_EmailStr (mkCreatePlayer "B" "b@X.COM") demo_store)
    as (Hnew & _ & _).
  destruct (summary_after_create demo_EmailStr (mkCreatePlayer "Z" "a@x.com") demo_store)
    as (_ & Hold & _).
  destruct (Hnew "b@x.com" eq_refl eq_refl) as (Hfresh & _ & Hraw).
  split; [apply Hfresh; reflexivity|].
  split; [apply Hraw; discriminate|].
  destruct (Hold demo_player eq_refl) as (Hsame & sum & Hsum & Hname).
  exists sum. split; [|exact Hname].
  etransitivity; [exact Hsame | exact Hsum].
Defined.

(** ** The store invariant *)

Lemma rewards_of_store_after (c : CompleteMilestoneRequest) (p : Player.doc) (s : store)
      (pid : ObjectId) :
  rewards_of pid (store_after c p s)
  = rewards_of pid s ++ (if N.eqb (Player._id p) pid then rewards_added c p else []).
Proof.
  unfold rewards_of, store_after. cbn [reward].
  rewrite map_app, List.filter_app. f_equal.
  rewrite map_map. cbn [Reward.body]. rewrite map_id.
  unfold rewards_added.
  destruct (bool_decide (milestone_id c ∈ completed_set p)); cbn;
    destruct (N.eqb (Player._id p) pid); reflexivity.
Qed.

Lemma completed_after_first (m : string) (l : list string) :
  NoDup l -> m ∉ l ->
  Permutation (elements (list_to_set (C:=gset string) l ∪ {[ m ]})) (l ++ [m]).
Proof.
  intros Hnd Hm.
  replace (list_to_set (C:=gset string) l ∪ {[ m ]})
    with ({[ m ]} ∪ list_to_set (C:=gset string) l)
    by (apply set_eq; intros x; rewrite !elem_of_union; tauto).
  rewrite elements_union_singleton
    by (intros Hin; apply elem_of_list_to_set in Hin; contradiction).
  rewrite elements_list_to_set by assumption.
  apply Permutation_cons_append.
Qed.

Lemma player_ok_after (c : CompleteMilestoneRequest) (p : Player.doc) :
  player_ok p -> player_ok (player_after c p).
Proof.
  intros (n & l & u & r & Hn & Hl & Hu & Hr & Hnd & Hbound & Hworld & Hrev).
  assert (Hul : unlocked_list p = u) by (unfold unlocked_list; rewrite Hu; reflexivity).
  assert (Hcs : completed_set p = list_to_set l)
    by (unfold completed_set; rewrite Hl; reflexivity).
  set (u' := u ++ (if unlocks c p then ["world_1"] else [])).
  assert (Hu' : Player.unlocked_worlds (player_after c p) = Some u').
  { pose proof (unlocked_list_after c p) as H. rewrite Hul in H. fold u' in H.
    unfold unlocked_list in H. unfold player_after in *.
    destruct (bool_decide (milestone_id c ∈ completed_set p)), (unlocks c p) eqn:Hun;
      cbn in *; rewrite ?Hu in *; cbn in *; try (rewrite <- H; reflexivity);
      subst u'; rewrite ?app_nil_r; reflexivity. }
  assert (Hworld' : (u' = [] \/ u' = ["world_1"])
                    /\ (PrimFloat.leb 1000%float (new_revenue_of c p) = true ->
                        u' = ["world_1"])).
  { subst u'. unfold unlocks. rewrite Hul.
    destruct (PrimFloat.leb 1000%float (new_revenue_of c p)) eqn:Hge; cbn [andb].
    - destruct (bool_decide ("world_1" ∈ u)) eqn:Hin; cbn [negb].
      + apply bool_decide_eq_true_1 in Hin. rewrite app_nil_r.
        destruct Hworld as [-> | ->]; [inversion Hin|]. auto.
      + apply bool_decide_eq_false_1 in Hin.
        destruct Hworld as [-> | ->]; [auto|].
        exfalso. apply Hin. left.
    - rewrite app_nil_r. split; [assumption | discriminate]. }
  destruct Hworld' as [Hw1 Hw2].
  destruct (bool_decide (milestone_id c ∈ completed_set p)) eqn:Hdup.
  - exists n, l, u', (new_revenue_of c p).
    unfold player_after in *. rewrite Hdup in *.
    split; [destruct (unlocks c p); assumption|].
    split; [destruct (unlocks c p); assumption|].
    split; [assumption|]. split; [destruct (unlocks c p); reflexivity|].
    auto.
  - apply bool_decide_eq_false_1 in Hdup. rewrite Hcs in Hdup.
    assert (Hm : milestone_id c ∉ l).
    { intros Hin. apply Hdup, elem_of_list_to_set. assumption. }
    pose proof (completed_after_first _ _ Hnd Hm) as Hperm.
    exists (n + award (speed c)),
           (elements (list_to_set (C:=gset string) l ∪ {[ milestone_id c ]})),
           u', (new_revenue_of c p).
    assert (Hfields :
      Player.av_coins (player_after c p) = Some (n + award (speed c))
      /\ Player.completed_milestones (player_after c p)
         = Some (elements (list_to_set (C:=gset string) l ∪ {[ milestone_id c ]}))
      /\ Player.revenue_usd (player_after c p) = Some (new_revenue_of c p)).
    { unfold player_after. rewrite Hcs.
      rewrite bool_decide_eq_false_2 by assumption.
      destruct (unlocks c p); cbn; rewrite Hn; auto. }
    destruct Hfields as (Ha & Hc & Hr').
    split; [assumption|]. split; [assumption|]. split; [assumption|].
    split; [assumption|].
    split; [apply NoDup_elements|]. split; [|auto].
    rewrite (Permutation_length Hperm), length_app. cbn [length].
    destruct (award_cases (speed c)) as [H|[H|H]]; rewrite H; lia.
Qed.

Lemma sum_app (l1 l2 : list Z) :
  foldr Z.add 0 (l1 ++ l2) = foldr Z.add 0 l1 + foldr Z.add 0 l2.
Proof.
  induction l1 as [|x l1 IH]; cbn; [reflexivity|]. rewrite IH. lia.
Qed.

Lemma ledger_after_other (c : CompleteMilestoneRequest) (p q : Player.doc) (s : store) :
  Player._id q <> Player._id p ->
  ledger_ok s q -> ledger_ok (store_after c p s) q.
Proof.
  intros Hne [Hbal Hperm]. unfold ledger_ok, reward_total.
  rewrite rewards_of_store_after.
  assert (E : N.eqb (Player._id p) (Player._id q) = false)
    by (apply N.eqb_neq; congruence).
  rewrite E, app_nil_r. split; assumption.
Qed.

Lemma ledger_after_self (c : CompleteMilestoneRequest) (p : Player.doc) (s : store) :
  player_ok p ->
  ledger_ok s p -> ledger_ok (store_after c p s) (player_after c p).
Proof.
  intros (n & l & u & r & Hn & Hl & Hu & Hr & Hnd & _) [Hbal Hperm].
  unfold ledger_ok, reward_total. rewrite player_after_id, rewards_of_store_after.
  rewrite N.eqb_refl, !map_app, sum_app, balance_after.
  fold (reward_total (Player._id p) s). rewrite <- Hbal.
  assert (Hcs : completed_set p = list_to_set l)
    by (unfold completed_set; rewrite Hl; reflexivity).
  rewrite Hl in Hperm. cbn [default] in Hperm.
  unfold response_of, rewards_added, player_after. cbn [av_coins_awarded].
  destruct (bool_decide (milestone_id c ∈ completed_set p)) eqn:Hdup.
  - cbn. rewrite app_nil_r. split; [lia|].
    destruct (unlocks c p); cbn; rewrite Hl; exact Hperm.
  - apply bool_decide_eq_false_1 in Hdup. rewrite Hcs in Hdup.
    assert (Hm : milestone_id c ∉ l).
    { intros Hin. apply Hdup, elem_of_list_to_set. assumption. }
    cbn [map foldr reward_item Reward.coins Reward.milestone_id].
    split; [lia|].
    assert (Hc : default [] (Player.completed_milestones
                   (if unlocks c p
                    then Database.addToSet_unlocked_worlds "world_1"
                           (Database.set_completed_inc_coins
                              (elements (completed_set p ∪ {[ milestone_id c ]}))
                              (award (speed c)) p)
                    else Database.set_completed_inc_coins
                           (elements (completed_set p ∪ {[ milestone_id c ]}))
                           (award (speed c)) p))
                 = elements (list_to_set (C:=gset string) l ∪ {[ milestone_id c ]})).
    { rewrite Hcs. destruct (unlocks c p); reflexivity. }
    cbn [Database.set_revenue_usd Player.completed_milestones] in *.
    rewrite Hc, (completed_after_first _ _ Hnd Hm), map_app. cbn [map].
    apply Permutation_app; [exact Hperm | reflexivity].
Qed.

Lemma Forall_replace (Q Q' : Player.doc -> Prop) (l1 l2 : list Player.doc)
      (p p' : Player.doc) :
  NoDup (map Player._id (l1 ++ p :: l2)) ->
  Forall Q (l1 ++ p :: l2) ->
  (Q p -> Q' p') ->
  (forall q, Q q -> Player._id q <> Player._id p -> Q' q) ->
  Forall Q' (l1 ++ p' :: l2).
Proof.
  intros Hnd HQ Hp Hq.
  rewrite map_app in Hnd. cbn [map] in Hnd.
  apply NoDup_app in Hnd as (_ & Hdisj & Hnd2).
  apply NoDup_cons in Hnd2 as [Hnot2 _].
  apply Forall_app in HQ as [HQ1 HQ2].
  apply Forall_cons in HQ2 as [HQp HQ2].
  apply Forall_app. split; [|apply Forall_cons; split; [auto|]].
  - rewrite Forall_forall in *. intros q Hin. apply Hq; [auto|].
    intros Heq. apply (Hdisj (Player._id q)).
    + apply list_elem_of_In, in_map, list_elem_of_In. assumption.
    + rewrite Heq. left.
  - rewrite Forall_forall in *. intros q Hin. apply Hq; [auto|].
    intros Heq. apply Hnot2. rewrite <- Heq.
    apply list_elem_of_In, in_map, list_elem_of_In. assumption.
Qed.

Lemma store_inv_complete (EmailStr : string -> option string) (c : CompleteMilestoneRequest)
      (s : store) :
  store_inv EmailStr s ->
  exists s', snd (complete_milestone c (Some s)) = Some s' /\ store_inv EmailStr s'.
Proof.
  intros (Hok & Hvalid & Hplayers & Hledger & Hrewards & Hms).
  destruct (Database.find_one_by_email s (player_email c)) as [p|] eqn:Hfind.
  - exists (store_after c p s). rewrite (complete_milestone_found c s p Hok Hfind).
    split; [reflexivity|].
    pose proof Hok as [Hnd _].
    destruct (update_first_split (player s) _ p (fun _ => player_after c p) Hnd Hfind)
      as (l1 & l2 & Hl & Hu).
    assert (Hpl : player (store_after c p s) = l1 ++ player_after c p :: l2)
      by exact Hu.
    assert (Hids : map Player._id (player (store_after c p s)) = map Player._id (player s)).
    { rewrite Hpl, Hl, !map_app. cbn [map]. rewrite player_after_id. reflexivity. }
    rewrite Hl in Hnd, Hvalid, Hplayers, Hledger.
    assert (Hpok : player_ok p).
    { apply Forall_app in Hplayers as [_ H]. apply Forall_cons in H as [H _]. exact H. }
    unfold store_inv.
    split; [apply store_after_ok; assumption|].
    split.
    { rewrite Hpl. eapply Forall_replace; [exact Hnd | exact Hvalid | |]; cbv beta.
      - intros [raw Hraw]. exists raw. rewrite player_after_email. exact Hraw.
      - auto. }
    split.
    { rewrite Hpl. eapply Forall_replace; [exact Hnd | exact Hplayers | |]; cbv beta.
      - apply player_ok_after.
      - auto. }
    split.
    { rewrite Hpl. eapply Forall_replace; [exact Hnd | exact Hledger | |]; cbv beta.
      - apply ledger_after_self. assumption.
      - intros q Hq Hne. apply ledger_after_other; assumption. }
    split; [|exact Hms].
    unfold store_after at 2. cbn [reward]. rewrite map_app, map_map. cbn [Reward.body].
    rewrite map_id. apply Forall_app. split.
    + eapply Forall_impl; [exact Hrewards|]. cbn. intros r [Hin Hcoins].
      split; [|assumption]. unfold reward_ok. rewrite Hids. assumption.
    + unfold rewards_added. destruct (bool_decide _); [constructor|].
      constructor; [|constructor]. split.
      * rewrite Hids, Hl, map_app. cbn. apply in_or_app. right. left. reflexivity.
      * cbn. destruct (award_cases (speed c)) as [H|[H|H]]; rewrite H; auto.
  - exists s. unfold complete_milestone. rewrite Hfind. cbn. split; [reflexivity|].
    unfold store_inv. auto 10.
Qed.

Lemma filter_none {A : Type} (f : A -> bool) (l : list A) :
  Forall (fun x => f x = false) l -> List.filter f l = [].
Proof.
  induction 1 as [|x l Hx _ IH]; cbn; [reflexivity|]. rewrite Hx. exact IH.
Qed.

Lemma store_inv_create (EmailStr : string -> option string) (payload : CreatePlayer)
      (s : store) :
  store_inv EmailStr s ->
  exists s', snd (create_player EmailStr payload (Some s)) = Some s'
             /\ store_inv EmailStr s'.
Proof.
  intros Hinv. unfold create_player.
  destruct (Database.find_one_by_email s (cp_email payload)) as [p|] eqn:Hfind;
    [exists s; split; [reflexivity | assumption]|].
  destruct (EmailStr (cp_email payload)) as [email|] eqn:Hvalid;
    [|exists s; split; [reflexivity | assumption]].
  destruct Hinv as ((Hnd & Hlt) & Hvalids & Hplayers & Hledger & Hrewards & Hms).
  eexists. split; [reflexivity|].
  unfold Database.create_document_player. cbn [snd].
  assert (Hfresh : ~ In (next_oid s) (map Player._id (player s))).
  { intros Hin. rewrite Forall_forall in Hlt.
    specialize (Hlt _ (proj2 (list_elem_of_In _ _) Hin)). lia. }
  unfold store_inv, store_ok. cbn [player milestone reward next_oid].
  rewrite !map_app. cbn [map new_player Player._id Player.email].
  split; [split|].
  - apply NoDup_app. split; [assumption|]. split; [|apply NoDup_singleton].
    intros i Hi Hi'. apply list_elem_of_singleton in Hi'. subst i.
    apply Hfresh, list_elem_of_In. assumption.
  - apply Forall_app. split.
    + eapply Forall_impl; [exact Hlt|]. cbn. intros i Hi. lia.
    + constructor; [lia | constructor].
  - split.
    { apply Forall_app. split; [assumption|]. constructor; [|constructor].
      exists (cp_email payload). exact Hvalid. }
    split.
    { apply Forall_app. split; [assumption|]. constructor; [|constructor].
      exists 0, [], [], 0%float. cbn.
      do 4 (split; [reflexivity|]). split; [apply NoDup_nil_2|].
      split; [lia|]. split; [auto|]. intros H. vm_compute in H. discriminate. }
    split.
    { apply Forall_app. split; [exact Hledger|]. constructor; [|constructor].
      unfold ledger_ok, reward_total, rewards_of, balance. cbn.
      rewrite filter_none; [split; reflexivity|].
      eapply Forall_impl; [exact Hrewards|]. cbn. intros r [Hin _].
      apply N.eqb_neq. intros Heq. apply Hfresh. rewrite <- Heq. assumption. }
    split; [|exact Hms].
    eapply Forall_impl; [exact Hrewards|]. cbn. intros r [Hin Hc].
    split; [|assumption]. cbn. rewrite map_app. apply in_or_app. left. assumption.
Qed.

Lemma missing_items_empty (s : store) : milestone s = [] -> missing_items s = catalog.
Proof.
  intros Hm. unfold missing_items, existing_milestone_ids. rewrite Hm.
  vm_compute. reflexivity.
Qed.

Lemma missing_items_full (s : store) :
  map Milestone.body (milestone s) = catalog -> missing_items s = [].
Proof.
  intros Hm. unfold missing_items, existing_milestone_ids.
  rewrite <- (map_map Milestone.body Milestone.milestone_id), Hm.
  vm_compute. reflexivity.
Qed.

Lemma store_inv_bootstrap (EmailStr : string -> option string) (s : store) :
  store_inv EmailStr s ->
  exists s', snd (bootstrap (Some s)) = Some s' /\ store_inv EmailStr s'.
Proof.
  intros ((Hnd & Hlt) & Hvalids & Hplayers & Hledger & Hrewards & Hms).
  rewrite bootstrap_once. eexists. split; [reflexivity|].
  unfold store_inv, store_ok. cbn [player milestone reward next_oid].
  split; [split; [assumption|]|].
  { eapply Forall_impl; [exact Hlt|]. cbn. intros i Hi. lia. }
  do 4 (split; [assumption|]).
  destruct Hms as [Hm | Hm].
  - right. rewrite Hm, (missing_items_empty s Hm). cbn [app]. apply with_ids_body.
  - right. rewrite (missing_items_full s Hm). cbn [with_ids]. rewrite app_nil_r. exact Hm.
Qed.

Lemma empty_store_inv (EmailStr : string -> option string) : store_inv EmailStr empty_store.
Proof.
  unfold store_inv. split; [apply empty_store_ok|]. cbn.
  repeat (split; [constructor|]). left. reflexivity.
Qed.

(** Every store that requests lead to from the empty store satisfies the
    invariant. *)
Lemma serve_all_inv (EmailStr : string -> option string) (reqs : list request) :
  forall s, store_inv EmailStr s ->
  exists s', serve_all EmailStr reqs (Some s) = Some s' /\ store_inv EmailStr s'.
Proof.
  induction reqs as [|r reqs IH]; intros s Hinv; [exists s; split; [reflexivity | assumption]|].
  assert (exists s1, serve EmailStr (Some s) r = Some s1 /\ store_inv EmailStr s1)
    as (s1 & Hs1 & Hinv1).
  { destruct r; cbn [serve].
    - apply store_inv_bootstrap. assumption.
    - apply store_inv_create. assumption.
    - exists s. split; [reflexivity | assumption].
    - apply store_inv_complete. assumption.
    - exists s. split; [reflexivity | assumption]. }
  destruct (IH s1 Hinv1) as (s' & Hs' & Hinv').
  exists s'. unfold serve_all in *. cbn [fold_left]. rewrite Hs1. split; assumption.
Qed.

Lemma reachable_inv (EmailStr : string -> option string) (reqs : list request) :
  exists s, serve_all EmailStr reqs (Some empty_store) = Some s /\ store_inv EmailStr s.
Proof.
  apply serve_all_inv, empty_store_inv.
Qed.

Lemma sort_by_key_sorted_id {A : Type} (key : A -> Z) (l : list A) :
  StronglySorted Z.le (map key l) -> sort_by_key key l = l.
Proof.
  induction l as [|x l IH]; cbn; [reflexivity|]. intros Hs.
  apply StronglySorted_inv in Hs as [Hs Hx]. rewrite (IH Hs).
  destruct l as [|y l]; [reflexivity|]. cbn in *.
  apply Forall_cons in Hx as [Hxy _].
  rewrite (proj2 (Z.leb_le _ _) Hxy). reflexivity.
Qed.

(** ** Stores built by the handlers *)

Lemma complete_milestone_emails (c : CompleteMilestoneRequest) (s : store) :
  store_ok s ->
  exists s',
    snd (complete_milestone c (Some s)) = Some s'
    /\ map Player.email (player s') = map Player.email (player s).
Proof.
  intros Hok.
  destruct (Database.find_one_by_email s (player_email c)) as [p|] eqn:Hfind.
  - exists (store_after c p s). rewrite (complete_milestone_found c s p Hok Hfind).
    split; [reflexivity|]. destruct Hok as [Hnd _].
    destruct (update_first_split (player s) _ p (fun _ => player_after c p) Hnd Hfind)
      as (l1 & l2 & Hl & Hu).
    unfold store_after. cbn [player]. rewrite Hu, Hl, !map_app. cbn [map].
    rewrite player_after_email. reflexivity.
  - exists s. unfold complete_milestone. rewrite Hfind. split; reflexivity.
Qed.

Lemma serve_emails (EmailStr : string -> option string) (r : request) (s : store) :
  store_ok s ->
  registers_as_given EmailStr r ->
  NoDup (map Player.email (player s)) ->
  exists s', serve EmailStr (Some s) r = Some s'
             /\ NoDup (map Player.email (player s')).
Proof.
  intros Hok Hgiven Hemails. destruct r as [|payload| |c|e]; cbn [serve].
  - rewrite bootstrap_once. eexists. split; [reflexivity|]. exact Hemails.
  - unfold create_player.
    destruct (Database.find_one_by_email s (cp_email payload)) as [p|] eqn:Hfind;
      [exists s; split; [reflexivity | assumption]|].
    cbn in Hgiven. destruct Hgiven as [Hbad | Hsame].
    + rewrite Hbad. exists s. split; [reflexivity | assumption].
    + rewrite Hsame. unfold Database.create_document_player. cbn [snd].
      eexists. split; [reflexivity|]. cbn [player]. rewrite map_app.
      cbn [map new_player Player.email].
      apply NoDup_app. split; [assumption|]. split; [|apply NoDup_singleton].
      intros e He He'. apply list_elem_of_singleton in He'. subst e.
      apply list_elem_of_In, in_map_iff in He as (q & Hq & Hin).
      unfold Database.find_one_by_email in Hfind.
      pose proof (find_none _ _ Hfind q Hin) as Hne. cbn in Hne.
      rewrite Hq, String.eqb_refl in Hne. discriminate.
  - exists s. split; [reflexivity | assumption].
  - destruct (complete_milestone_emails c s Hok) as (s' & Hs' & Hem).
    exists s'. split; [assumption|]. rewrite Hem. assumption.
  - exists s. split; [reflexivity | assumption].
Qed.

Lemma serve_all_emails (EmailStr : string -> option string) (reqs : list request) :
  forall s,
  store_inv EmailStr s ->
  Forall (registers_as_given EmailStr) reqs ->
  NoDup (map Player.email (player s)) ->
  exists s', serve_all EmailStr reqs (Some s) = Some s'
             /\ NoDup (map Player.email (player s')).
Proof.
  induction reqs as [|r reqs IH]; intros s Hinv Hgiven Hemails;
    [exists s; split; [reflexivity | assumption]|].
  apply Forall_cons in Hgiven as [Hr Hrest].
  destruct (serve_emails EmailStr r s (proj1 Hinv) Hr Hemails) as (s1 & Hs1 & Hem1).
  destruct (serve_all_inv EmailStr [r] s Hinv) as (s1' & Hs1' & Hinv1).
  unfold serve_all in Hs1'. cbn [fold_left] in Hs1'.
  assert (s1' = s1) by congruence. subst s1'.
  destruct (IH s1 Hinv1 Hrest Hem1) as (s' & Hs' & Hem').
  exists s'. unfold serve_all in *. cbn [fold_left]. rewrite Hs1. split; assumption.
Qed.

(** X8. In every store that requests build from the empty store, no two
    players share an [_id], and every stored email is an address as the
    validation of the schema returned it.  When every address that the
    requests register is one that the validation refuses or returns as it was
    submitted, no two players share an email either, and the player found by
    an email is the only one with it. *)
Theorem reachable_players_unique (EmailStr : string -> option string)
        (reqs : list request) :
  exists s,
    serve_all EmailStr reqs (Some empty_store) = Some s
    /\ NoDup (map Player._id (player s))
    /\ (forall p, In p (player s) -> exists raw, EmailStr raw = Some (Player.email p))
    /\ (Forall (registers_as_given EmailStr) reqs ->
        NoDup (map Player.email (player s))
        /\ (forall p e, Database.find_one_by_email s e = Some p ->
            forall q, In q (player s) -> Player.email q = e -> q = p)).
Proof.
  destruct (reachable_inv EmailStr reqs) as (s & Hs & (Hnd & _) & Hvalid & _).
  exists s. split; [assumption|]. split; [assumption|]. split.
  - intros p Hin. rewrite Forall_forall in Hvalid. apply Hvalid, list_elem_of_In, Hin.
  - intros Hgiven.
    destruct (serve_all_emails EmailStr reqs empty_store (empty_store_inv EmailStr)
                Hgiven NoDup_nil_2) as (s' & Hs' & Hemails).
    assert (s' = s) by congruence. subst s'.
    split; [assumption|].
    intros p e Hfind q Hq He.
    destruct (find_email_In _ _ _ Hfind) as [Hp Hpe].
    apply (NoDup_map_inj Player.email (player s)); try assumption. congruence.
Qed.

Lemma reachable_players_unique_witness :
  exists s,
    serve_all demo_EmailStr
      [POST_player (mkCreatePlayer "A" "a@x.com");
       POST_player (mkCreatePlayer "B" "b@x.com");
       POST_player (mkCreatePlayer "A again" "a@x.com")]
      (Some empty_store) = Some s
    /\ NoDup (map Player.email (player s)).
Proof.
  destruct (reachable_players_unique demo_EmailStr
              [POST_player (mkCreatePlayer "A" "a@x.com");
               POST_player (mkCreatePlayer "B" "b@x.com");
               POST_player (mkCreatePlayer "A again" "a@x.com")])
    as (s & Hs & _ & _ & Hunique).
  exists s. split; [exact Hs|]. apply Hunique.
  repeat (constructor; [right; reflexivity|]). constructor.
Defined.

(** X9. In every store that requests build from the empty store, the
    balance of each player is the sum of the coins of the reward documents
    written for that player, these documents are for the player's completed
    milestones, one for each, and every reward document is for a stored
    player and grants 115, 130 or 150 coins. *)
Theorem reachable_ledger (EmailStr : string -> option string) (reqs : list request) :
  exists s,
    serve_all EmailStr reqs (Some empty_store) = Some s
    /\ (forall p, In p (player s) ->
          Player.av_coins p = Some (reward_total (Player._id p) s)
          /\ exists l, Player.completed_milestones p = Some l
               /\ Permutation (map Some l)
                    (map Reward.milestone_id (rewards_of (Player._id p) s)))
    /\ (forall r, In r (map Reward.body (reward s)) ->
          In (Reward.player_id r) (map Player._id (player s))
          /\ (Reward.coins r = 115 \/ Reward.coins r = 130 \/ Reward.coins r = 150)).
Proof.
  destruct (reachable_inv EmailStr reqs)
    as (s & Hs & _ & _ & Hplayers & Hledger & Hrewards & _).
  exists s. split; [assumption|]. split.
  - intros p Hin. apply list_elem_of_In in Hin. rewrite Forall_forall in Hplayers, Hledger.
    destruct (Hplayers p Hin) as (n & l & u & r & Hn & Hl & _).
    destruct (Hledger p Hin) as [Hbal Hperm].
    unfold balance in Hbal. rewrite Hn in Hbal. cbn in Hbal.
    rewrite Hl in Hperm. cbn [default] in Hperm.
    split; [rewrite Hn, Hbal; reflexivity|]. exists l. split; assumption.
  - intros r Hin. rewrite Forall_forall in Hrewards. apply Hrewards, list_elem_of_In, Hin.
Qed.

(** X10. In every store that requests build from the empty store, each
    player's completed milestones are listed without repetition, and the
    balance is between 115 and 150 coins per completed milestone; so it is
    never negative. *)
Theorem reachable_balance_bounds (EmailStr : string -> option string) (reqs : list request) :
  exists s,
    serve_all EmailStr reqs (Some empty_store) = Some s
    /\ forall p, In p (player s) ->
         exists n l,
           Player.av_coins p = Some n
           /\ Player.completed_milestones p = Some l
           /\ NoDup l
           /\ 115 * Z.of_nat (length l) <= n <= 150 * Z.of_nat (length l)
           /\ 0 <= n.
Proof.
  destruct (reachable_inv EmailStr reqs) as (s & Hs & _ & _ & Hplayers & _).
  exists s. split; [assumption|].
  intros p Hin. apply list_elem_of_In in Hin. rewrite Forall_forall in Hplayers.
  destruct (Hplayers p Hin) as (n & l & u & r & Hn & Hl & _ & _ & Hnd & Hb & _).
  exists n, l. repeat split; try assumption; lia.
Qed.

(** X11. In every store that requests build from the empty store, each
    player has unlocked nothing or ["world_1"] alone, and a player whose
    stored revenue is at least 1000 has unlocked ["world_1"]. *)
Theorem reachable_world_1 (EmailStr : string -> option string) (reqs : list request) :
  exists s,
    serve_all EmailStr reqs (Some empty_store) = Some s
    /\ forall p, In p (player s) ->
         exists u r,
           Player.unlocked_worlds p = Some u
           /\ Player.revenue_usd p = Some r
           /\ (u = [] \/ u = ["world_1"])
           /\ (PrimFloat.leb 1000%float r = true -> u = ["world_1"]).
Proof.
  destruct (reachable_inv EmailStr reqs) as (s & Hs & _ & _ & Hplayers & _).
  exists s. split; [assumption|].
  intros p Hin. apply list_elem_of_In in Hin. rewrite Forall_forall in Hplayers.
  destruct (Hplayers p Hin) as (n & l & u & r & _ & _ & Hu & Hr & _ & _ & Hw & Hrev).
  exists u, r. auto.
Qed.

(** X12. In every store that requests build from the empty store, the
    milestones are none or the catalog in its order; [list_milestones]
    answers the empty list or the catalog, from ["m1"] to ["m11"], and every
    milestone it answers meets the constraints of [class Milestone]. *)
Theorem reachable_catalog (EmailStr : string -> option string) (reqs : list request) :
  exists s,
    serve_all EmailStr reqs (Some empty_store) = Some s
    /\ (milestone s = [] \/ map Milestone.body (milestone s) = catalog)
    /\ (list_milestones (Some s) = Ok [] \/ list_milestones (Some s) = Ok catalog)
    /\ (forall ms, list_milestones (Some s) = Ok ms ->
          forallb Milestone_valid ms = true).
Proof.
  destruct (reachable_inv EmailStr reqs) as (s & Hs & _ & _ & _ & _ & _ & Hms).
  exists s. split; [assumption|]. split; [assumption|].
  assert (Hlist : list_milestones (Some s) = Ok [] \/ list_milestones (Some s) = Ok catalog).
  { unfold list_milestones. cbn [Database.get_documents_milestone].
    destruct Hms as [Hm | Hm]; [left; rewrite Hm; reflexivity|].
    right. rewrite sort_by_key_sorted_id; [rewrite Hm; reflexivity|].
    replace (map order_key (milestone s))
      with (map (fun m => default 999 (Milestone.order m)) (map Milestone.body (milestone s)))
      by (rewrite map_map; reflexivity).
    rewrite Hm. cbn. repeat (constructor; [|repeat constructor; lia]). constructor. }
  split; [exact Hlist|].
  intros ms Hok. destruct Hlist as [H | H]; rewrite H in Hok; injection Hok as <-; reflexivity.
Qed.

(** In every store that requests build from the empty store, every
    reward document meets the constraint of [class Reward] on [coins], and
    every stored milestone those of [class Milestone]. *)
Theorem reachable_documents_valid (EmailStr : string -> option string) (reqs : list request) :
  exists s,
    serve_all EmailStr reqs (Some empty_store) = Some s
    /\ forallb Reward_valid (map Reward.body (reward s)) = true
    /\ forallb Milestone_valid (map Milestone.body (milestone s)) = true.
Proof.
  destruct (reachable_inv EmailStr reqs) as (s & Hs & _ & _ & _ & _ & Hrewards & Hms).
  exists s. split; [assumption|]. split.
  - apply forallb_forall. intros r Hin. rewrite Forall_forall in Hrewards.
    destruct (Hrewards r (proj2 (list_elem_of_In _ _) Hin)) as [_ [H|[H|H]]];
      unfold Reward_valid; rewrite H; reflexivity.
  - destruct Hms as [Hm | Hm]; rewrite Hm; reflexivity.
Qed.

(** X13. [list_milestones] answers milestones that are stored in ascending
    order of their key in the order they are stored. *)
Theorem list_milestones_sorted_input (s : store) :
  StronglySorted Z.le (map order_key (milestone s)) ->
  list_milestones (Some s) = Ok (map Milestone.body (milestone s)).
Proof.
  intros Hs. unfold list_milestones. cbn [Database.get_documents_milestone].
  rewrite sort_by_key_sorted_id by assumption. reflexivity.
Qed.

Lemma list_milestones_sorted_input_witness :
  list_milestones
    (Some (mkstore []
             [Milestone.mkdoc 0%N (Milestone.mk (Some "a") "first" None (Some 3));
              Milestone.mkdoc 1%N (Milestone.mk (Some "b") "second" None (Some 3));
              Milestone.mkdoc 2%N (Milestone.mk (Some "c") "third" None None)]
             [] 3%N))
  = Ok [Milestone.mk (Some "a") "first" None (Some 3);
        Milestone.mk (Some "b") "second" None (Some 3);
        Milestone.mk (Some "c") "third" None None].
Proof.
  apply (list_milestones_sorted_input
           (mkstore []
              [Milestone.mkdoc 0%N (Milestone.mk (Some "a") "first" None (Some 3));
               Milestone.mkdoc 1%N (Milestone.mk (Some "b") "second" None (Some 3));
               Milestone.mkdoc 2%N (Milestone.mk (Some "c") "third" None None)]
              [] 3%N)).
  cbn. repeat (constructor; [|repeat constructor; lia]). constructor.
Defined.

(** X14. After [bootstrap] every identifier of the catalog is stored,
    whatever was stored before; the number it answers is 11 less the number
    of catalog entries whose identifier was stored already, so it is between
    0 and 11; and a well-formed store stays well formed. *)
Theorem bootstrap_complete (s : store) :
  exists n s',
    bootstrap (Some s) = (Ok n, Some s')
    /\ (forall item, In item catalog ->
          In (Milestone.milestone_id item) (map stored_id (milestone s')))
    /\ n = 11 - Z.of_nat (length (List.filter
                                    (fun item => bool_decide (Milestone.milestone_id item
                                                              ∈ existing_milestone_ids s))
                                    catalog))
    /\ 0 <= n <= 11
    /\ (store_ok s -> store_ok s').
Proof.
  eexists _, _. split; [apply bootstrap_once|]. cbn [milestone].
  split.
  { intros item Hin. rewrite map_app, with_ids_stored_id. apply in_or_app.
    destruct (bool_decide (Milestone.milestone_id item ∈ existing_milestone_ids s)) eqn:Hd.
    - left. apply bool_decide_eq_true_1, existing_milestone_ids_spec in Hd.
      apply list_elem_of_In. assumption.
    - right. apply in_map. unfold missing_items. apply filter_In.
      rewrite Hd. split; [assumption | reflexivity]. }
  pose proof (filter_length
                (fun item => bool_decide (Milestone.milestone_id item
                                          ∈ existing_milestone_ids s)) catalog) as Hlen.
  cbv beta in Hlen. fold (missing_items s) in Hlen.
  change (length catalog) with 11%nat in Hlen.
  split; [lia|]. split; [lia|].
  intros [Hnd Hlt]. split; [assumption|]. cbn [player next_oid].
  eapply Forall_impl; [exact Hlt|]. cbn. intros i Hi. lia.
Qed.

Lemma bootstrap_complete_witness :
  exists n s',
    bootstrap (Some demo_store) = (Ok n, Some s')
    /\ In (Some "m7") (map stored_id (milestone s'))
    /\ store_ok s'.
Proof.
  destruct (bootstrap_complete demo_store) as (n & s' & Hb & Hall & _ & _ & Hok).
  exists n, s'. split; [exact Hb|]. split.
  - apply (Hall (catalog_item "m7" "Tienda, Status es Creada" 7)).
    cbn. do 6 right. left. reflexivity.
  - apply Hok, demo_store_ok.
Defined.

(** ** The reward of a first completion, and completing after registering *)

(** X15. A first completion appends one reward document under a fresh
    [_id]: it is for the player found and for the milestone id of the call,
    and its coins are the coins of the answer; for a speed of ASCII
    characters (or none), its reason names the milestone id and the speed in
    lower case (["normal"] when there is none). *)
Theorem first_completion_reward (c : CompleteMilestoneRequest) (s : store) (p : Player.doc) :
  store_ok s ->
  Database.find_one_by_email s (player_email c) = Some p ->
  milestone_id c ∉ completed_set p ->
  exists resp s' r,
    complete_milestone c (Some s) = (Ok resp, Some s')
    /\ reward s' = reward s ++ [r]
    /\ Reward._id r = next_oid s
    /\ next_oid s' = N.succ (next_oid s)
    /\ Reward.player_id (Reward.body r) = Player._id p
    /\ Reward.milestone_id (Reward.body r) = Some (milestone_id c)
    /\ Reward.coins (Reward.body r) = av_coins_awarded resp
    /\ (is_ascii (str_or (speed c) "normal") = true ->
        Reward.reason (Reward.body r)
        = "Completed " +:+ milestone_id c +:+ " ("
          +:+ lower (str_or (speed c) "normal") +:+ ")")
    /\ Reward_valid (Reward.body r) = true.
Proof.
  intros Hok Hfind Hnew.
  exists (response_of c p), (store_after c p s). eexists.
  split; [apply complete_milestone_found; assumption|].
  unfold store_after, rewards_added, response_of.
  rewrite !bool_decide_eq_false_2 by assumption.
  cbn [reward next_oid map length av_coins_awarded].
  split; [reflexivity|]. cbn.
  split; [reflexivity|]. split; [lia|]. do 3 (split; [reflexivity|]).
  split; [intros _; reflexivity|].
  unfold Reward_valid. cbn.
  destruct (award_cases (speed c)) as [H|[H|H]]; rewrite H; reflexivity.
Qed.

Lemma first_completion_reward_witness :
  exists resp s' r,
    complete_milestone (demo_call "m1" (Some "FAST") None) (Some demo_store)
    = (Ok resp, Some s')
    /\ reward s' = [r]
    /\ Reward.coins (Reward.body r) = 150
    /\ Reward.reason (Reward.body r) = "Completed m1 (fast)".
Proof.
  destruct (first_completion_reward (demo_call "m1" (Some "FAST") None)
              demo_store demo_player demo_store_ok eq_refl)
    as (resp & s' & r & Hc & Hr & _ & _ & _ & _ & Hcoins & Hreason & _).
  - apply (bool_decide_unpack _). vm_compute. exact I.
  - exists resp, s', r. split; [exact Hc|]. split; [exact Hr|].
    rewrite Hcoins, (Hreason eq_refl). injection Hc as <- _. split; reflexivity.
Defined.

(** X16. After [create_player] has registered an email that was not stored,
    a call for the address that the validation returned never fails with a
    missing player, and if no older player is stored under that address it is
    a first completion on a fresh player: it awards the coins of the speed,
    its revenue is 0 plus the increase, and it reports ["world_1"] exactly
    when that revenue is at least 1000.  A call for the submitted address
    fails with a missing player when the validation returned another
    address.  After [create_player] for an email that was stored, a call for
    it does not fail. *)
Theorem complete_after_create (EmailStr : string -> option string) (payload : CreatePlayer)
        (c : CompleteMilestoneRequest) (s : store) :
  (forall email,
     Database.find_one_by_email s (cp_email payload) = None ->
     EmailStr (cp_email payload) = Some email ->
     (player_email c = email ->
      exists resp,
        fst (complete_milestone c (snd (create_player EmailStr payload (Some s)))) = Ok resp
        /\ (Database.find_one_by_email s email = None ->
            av_coins_awarded resp = award (speed c)
            /\ revenue_usd resp = PrimFloat.add 0%float (float_or_0 (revenue_increase c))
            /\ (unlocked_world resp = Some "world_1"
                <-> PrimFloat.leb 1000%float (revenue_usd resp) = true)))
     /\ (player_email c = cp_email payload -> email <> cp_email payload ->
         fst (complete_milestone c (snd (create_player EmailStr payload (Some s))))
         = Raise Player_not_found))
  /\ (forall p,
        Database.find_one_by_email s (cp_email payload) = Some p ->
        player_email c = cp_email payload ->
        exists resp,
          fst (complete_milestone c (snd (create_player EmailStr payload (Some s))))
          = Ok resp).
Proof.
  split.
  - intros email Hfind Hvalid. unfold create_player. rewrite Hfind, Hvalid.
    unfold Database.create_document_player. cbn [snd].
    set (np := new_player (cp_name payload) email (next_oid s)).
    set (s1 := mkstore (player s ++ [np]) (milestone s) (reward s) (N.succ (next_oid s))).
    assert (Hlook : forall e,
              Database.find_one_by_email s1 e
              = match Database.find_one_by_email s e with
                | Some q => Some q
                | None => if String.eqb email e then Some np else None
                end).
    { intros e. unfold Database.find_one_by_email. subst s1. cbn [player].
      rewrite find_app_last. reflexivity. }
    split.
    + intros Hc.
      destruct (Database.find_one_by_email s email) as [q|] eqn:Hold.
      * assert (Hq : Database.find_one_by_email s1 (player_email c) = Some q)
          by (rewrite Hlook, Hc, Hold; reflexivity).
        exists (response_of c q).
        split; [apply complete_milestone_response; assumption | discriminate].
      * assert (Hq : Database.find_one_by_email s1 (player_email c) = Some np)
          by (rewrite Hlook, Hc, Hold, String.eqb_refl; reflexivity).
        exists (response_of c np).
        split; [apply complete_milestone_response; assumption|].
        intros _. unfold response_of, unlocks, new_revenue_of.
        cbn [av_coins_awarded revenue_usd unlocked_world].
        subst np. cbn [new_player Player.revenue_usd Player.unlocked_worlds
                       Player.completed_milestones default unlocked_list completed_set].
        split; [reflexivity|]. split; [reflexivity|].
        destruct (PrimFloat.leb _ _); cbn.
        -- split; reflexivity.
        -- split; discriminate.
    + intros Hc Hne. unfold complete_milestone. rewrite Hlook, Hc, Hfind.
      destruct (String.eqb email (cp_email payload)) eqn:E; [|reflexivity].
      apply String.eqb_eq in E. contradiction.
  - intros p Hfind Hc. unfold create_player. rewrite Hfind. cbn [snd].
    rewrite <- Hc in Hfind. exists (response_of c p).
    apply complete_milestone_response. assumption.
Qed.

Lemma complete_after_create_witness :
  (exists resp,
     fst (complete_milestone
            (mkCompleteMilestoneRequest "b@x.com" "m1" (Some "slow") (Some 2000%float))
            (snd (create_player demo_EmailStr (mkCreatePlayer "B" "b@X.COM")
                    (Some demo_store))))
     = Ok resp
     /\ av_coins_awarded resp = 115
     /\ unlocked_world resp = Some "world_1")
  /\ fst (complete_milestone
            (mkCompleteMilestoneRequest "b@X.COM" "m1" (Some "slow") (Some 2000%float))
            (snd (create_player demo_EmailStr (mkCreatePlayer "B" "b@X.COM")
                    (Some demo_store))))
     = Raise Player_not_found.
Proof.
  split.
  - destruct (complete_after_create demo_EmailStr (mkCreatePlayer "B" "b@X.COM")
                (mkCompleteMilestoneRequest "b@x.com" "m1" (Some "slow") (Some 2000%float))
                demo_store) as (Hnew & _).
    destruct (Hnew "b@x.com" eq_refl eq_refl) as (Hok & _).
    destruct (Hok eq_refl) as (resp & Hr & Hfresh).
    exists resp. split; [exact Hr|].
    destruct (Hfresh eq_refl) as (Hcoins & Hrev & Hworld).
    split; [rewrite Hcoins; reflexivity|].
    apply Hworld. rewrite Hrev. reflexivity.
  - destruct (complete_after_create demo_EmailStr (mkCreatePlayer "B" "b@X.COM")
                (mkCompleteMilestoneRequest "b@X.COM" "m1" (Some "slow") (Some 2000%float))
                demo_store) as (Hnew & _).
    destruct (Hnew "b@x.com" eq_refl eq_refl) as (_ & Hraw).
    apply Hraw; [reflexivity | discriminate].
Defined.

(** ** The database check *)





